(** * A generic singly linked list in C (LINKEDLIST/src/linkedlist.c)

    The C functions are embedded as programs of a small state-and-error
    monad over an explicit memory: a finite map from addresses to the
    objects obtained from [malloc].  Pointers are 64-bit addresses with
    [NULL = 0]; the answers of [malloc] come from an oracle carried by the
    memory, so that every allocation may fail; output is a trace of
    events. *)

From Stdlib Require Import NArith Lia String Ascii.
From Stdlib Require Import Strings.Byte.
From stdpp Require Import base numbers option list gmap.

Local Open Scope N_scope.

(** ** Memory *)

Abbreviation ptr := N (only parsing).

Definition NULL : ptr := 0.

(** [size_t] and pointers are 64 bits wide. *)
Definition SIZE_MAX : N := 18446744073709551615.

(** [struct sll_node] and [struct sllist] of linkedlist.h. *)
Record sll_node := Node { data : ptr; next : ptr }.
Record sllist := SList { head : ptr; data_size : N }.

(** What a live allocation holds: a list descriptor, a node, or the
    [data_size] bytes of a payload. *)
Inductive object :=
| ObjList (l : sllist)
| ObjNode (n : sll_node)
| ObjBytes (bs : list byte).

(** What the outside world sees: a call of the caller's [print_func] with
    its argument (and the bytes that argument points to at the time of the
    call, when it points to a payload), and text written by [printf]. *)
Inductive event :=
| Call_print_func (arg : ptr) (pointee : option (list byte))
| Printf (s : string).

Record mem := Mem {
  heap : gmap N object;
  oracle : list N;
  trace : list event
}.

Definition with_heap (h : gmap N object) (m : mem) : mem :=
  {| heap := h; oracle := oracle m; trace := trace m |}.

(** ** The monad of C statements

    A statement run in a memory either completes with a value and a new
    memory, has undefined behaviour (an access through a pointer that is
    null or not live, a read past a buffer), or never returns. *)
Inductive outcome (A : Type) :=
| Done (a : A) (m : mem)
| Fault
| Diverge.
Arguments Done {A} a m.
Arguments Fault {A}.
Arguments Diverge {A}.

Definition M (A : Type) : Type := mem -> outcome A.

Definition ret {A} (a : A) : M A := fun m => Done a m.

Definition bind {A B} (c : M A) (k : A -> M B) : M B :=
  fun m =>
    match c m with
    | Done a m' => k a m'
    | Fault => Fault
    | Diverge => Diverge
    end.

Definition fault {A} : M A := fun _ => Fault.
Definition diverge {A} : M A := fun _ => Diverge.

Notation "'let*' x := c 'in' k" := (bind c (fun x => k))
  (at level 10, x name, c at level 100, k at level 200).
Notation "c ;; k" := (bind c (fun _ => k))
  (at level 100, k at level 200, right associativity).

(** ** malloc, free, memcpy and field accesses *)

(** An address can be handed out when it is a non-null 64-bit address
    that is not live. *)
Definition usable (a : ptr) (h : gmap N object) : bool :=
  negb (a =? NULL) && (a <=? SIZE_MAX) &&
  match h !! a with None => true | Some _ => false end.

(** [malloc]: the oracle proposes the address of the new storage; no
    proposal, or one that cannot be handed out, is an allocation failure
    (NULL).  The contents of fresh storage are indeterminate in C; the
    functions below write every field before they read it, and the model
    fills fresh storage with [init]. *)
Definition malloc (init : object) : M ptr :=
  fun m =>
    match oracle m with
    | [] => Done NULL m
    | a :: rest =>
        if usable a (heap m)
        then Done a {| heap := <[a := init]> (heap m); oracle := rest; trace := trace m |}
        else Done NULL {| heap := heap m; oracle := rest; trace := trace m |}
    end.

(** [free(p)]: nothing for NULL, releases a live allocation, undefined
    otherwise. *)
Definition free (p : ptr) : M unit :=
  fun m =>
    if p =? NULL then Done tt m
    else match heap m !! p with
         | Some _ => Done tt (with_heap (delete p (heap m)) m)
         | None => Fault
         end.

Definition load (p : ptr) : M object :=
  fun m => match heap m !! p with Some o => Done o m | None => Fault end.

Definition store (p : ptr) (o : object) : M unit :=
  fun m =>
    match heap m !! p with
    | Some _ => Done tt (with_heap (<[p := o]> (heap m)) m)
    | None => Fault
    end.

Definition load_node (p : ptr) : M sll_node :=
  let* o := load p in
  match o with ObjNode n => ret n | _ => fault end.

Definition load_list (p : ptr) : M sllist :=
  let* o := load p in
  match o with ObjList l => ret l | _ => fault end.

(** [p->data], [p->next], [p->data = v], [p->next = v] *)
Definition get_data (p : ptr) : M ptr := let* n := load_node p in ret (data n).
Definition get_next (p : ptr) : M ptr := let* n := load_node p in ret (next n).
Definition set_data (p v : ptr) : M unit :=
  let* n := load_node p in store p (ObjNode {| data := v; next := next n |}).
Definition set_next (p v : ptr) : M unit :=
  let* n := load_node p in store p (ObjNode {| data := data n; next := v |}).

(** [l->head], [l->data_size], [l->head = v], [l->data_size = v] *)
Definition get_head (l : ptr) : M ptr := let* d := load_list l in ret (head d).
Definition get_data_size (l : ptr) : M N := let* d := load_list l in ret (data_size d).
Definition set_head (l v : ptr) : M unit :=
  let* d := load_list l in store l (ObjList {| head := v; data_size := data_size d |}).
Definition set_data_size (l : ptr) (v : N) : M unit :=
  let* d := load_list l in store l (ObjList {| head := head d; data_size := v |}).

(** [memcpy(dst, src, n)] from the caller's storage [src] into a payload:
    the first [n] bytes are replaced; undefined when either side is
    shorter than [n]. *)
Definition memcpy (dst : ptr) (src : list byte) (n : N) : M unit :=
  let* o := load dst in
  match o with
  | ObjBytes old =>
      if (n <=? N.of_nat (length src)) && (n <=? N.of_nat (length old))
      then store dst (ObjBytes (take (N.to_nat n) src ++ drop (N.to_nat n) old))
      else fault
  | _ => fault
  end.

(** Bound of a [while] loop that walks a chain without changing the
    memory: each iteration stands on another live cell, so a walk of more
    steps than there are live cells is on a cycle and never ends. *)
Definition loop_bound : M nat := fun m => Done (S (size (heap m))) m.

Definition emit (e : event) : M unit :=
  fun m => Done tt {| heap := heap m; oracle := oracle m; trace := trace m ++ [e] |}.

Definition pointee (h : gmap N object) (p : ptr) : option (list byte) :=
  match h !! p with Some (ObjBytes bs) => Some bs | _ => None end.

(** The call [print_func(p)] of the caller's function.  What the callee
    does is its own business; it is given a pointer to read from, and the
    model records the call and leaves the memory alone. *)
Definition call_print_func (p : ptr) : M unit :=
  fun m => emit (Call_print_func p (pointee (heap m) p)) m.

(** ** The functions of linkedlist.c

    A [void* data] argument is [None] for a null pointer and [Some bs] for
    a pointer to storage that holds the bytes [bs] when the function is
    called; the insert functions only read it, once, in [memcpy]. *)

Definition fresh_node : object := ObjNode {| data := NULL; next := NULL |}.
Definition fresh_bytes (n : N) : object := ObjBytes (replicate (N.to_nat n) x00).

Definition fresh_list : object := ObjList {| head := NULL; data_size := 0 |}.

Definition sllist_create (size : N) : M ptr :=
  let* lst := malloc fresh_list in
  if lst =? NULL then ret NULL
  else
    set_head lst NULL ;;
    set_data_size lst size ;;
    ret lst.

Definition insert_front (lst : ptr) (data : option (list byte)) : M unit :=
  if lst =? NULL then ret tt
  else
    match data with
    | None => ret tt
    | Some src =>
        let* new_node := malloc fresh_node in
        if new_node =? NULL then ret tt
        else
          let* sz := get_data_size lst in
          let* d := malloc (fresh_bytes sz) in
          set_data new_node d ;;
          let* d := get_data new_node in
          if d =? NULL then free new_node
          else
            let* dst := get_data new_node in
            let* sz := get_data_size lst in
            memcpy dst src sz ;;
            let* hd := get_head lst in
            set_next new_node hd ;;
            set_head lst new_node
    end.

(** [while (current->next != NULL) current = current->next;] *)
Fixpoint walk_to_last (fuel : nat) (current : ptr) : M ptr :=
  match fuel with
  | O => diverge
  | S fuel' =>
      let* nx := get_next current in
      if nx =? NULL then ret current
      else let* nx := get_next current in walk_to_last fuel' nx
  end.

Definition insert_end (lst : ptr) (data : option (list byte)) : M unit :=
  if lst =? NULL then ret tt
  else
    match data with
    | None => ret tt
    | Some src =>
        let* new_node := malloc fresh_node in
        if new_node =? NULL then ret tt
        else
          let* sz := get_data_size lst in
          let* d := malloc (fresh_bytes sz) in
          set_data new_node d ;;
          let* d := get_data new_node in
          if d =? NULL then free new_node
          else
            let* dst := get_data new_node in
            let* sz := get_data_size lst in
            memcpy dst src sz ;;
            set_next new_node NULL ;;
            let* hd := get_head lst in
            if hd =? NULL then set_head lst new_node
            else
              let* current := get_head lst in
              let* fuel := loop_bound in
              let* current := walk_to_last fuel current in
              set_next current new_node
    end.

(** [for (size_t i = 0; i < index - 1; i++)] of [insert_at_index], run for
    [n] iterations; [None] when the body hits [current == NULL]. *)
Fixpoint walk_insert (n : nat) (current : ptr) : M (option ptr) :=
  match n with
  | O => ret (Some current)
  | S n' =>
      if current =? NULL then ret None
      else let* nx := get_next current in walk_insert n' nx
  end.

Definition insert_at_index (lst : ptr) (data : option (list byte)) (index : N) : M unit :=
  if lst =? NULL then ret tt
  else
    match data with
    | None => ret tt
    | Some src =>
        let* new_node := malloc fresh_node in
        if new_node =? NULL then ret tt
        else
          let* sz := get_data_size lst in
          let* d := malloc (fresh_bytes sz) in
          set_data new_node d ;;
          let* d := get_data new_node in
          if d =? NULL then free new_node
          else
            let* dst := get_data new_node in
            let* sz := get_data_size lst in
            memcpy dst src sz ;;
            set_next new_node NULL ;;
            if index =? 0 then
              let* hd := get_head lst in
              set_next new_node hd ;;
              set_head lst new_node
            else
              let* current := get_head lst in
              let* r := walk_insert (N.to_nat (index - 1)) current in
              match r with
              | None =>
                  let* d := get_data new_node in
                  free d ;;
                  free new_node
              | Some current =>
                  if current =? NULL then
                    let* d := get_data new_node in
                    free d ;;
                    free new_node
                  else
                    let* nx := get_next current in
                    set_next new_node nx ;;
                    set_next current new_node
              end
    end.

(** The loop of [free_sllist]; every iteration releases two live cells. *)
Fixpoint free_nodes (fuel : nat) (current : ptr) : M unit :=
  match fuel with
  | O => diverge
  | S fuel' =>
      if current =? NULL then ret tt
      else
        let* next_node := get_next current in
        let* d := get_data current in
        free d ;;
        free current ;;
        free_nodes fuel' next_node
  end.

Definition free_sllist (lst : ptr) : M unit :=
  let* current := get_head lst in
  let* fuel := loop_bound in
  free_nodes fuel current ;;
  free lst.

Definition free_at_front (lst : ptr) : M unit :=
  let* hd := get_head lst in
  if hd =? NULL then ret tt
  else
    let* temp := get_head lst in
    let* hd := get_head lst in
    let* nx := get_next hd in
    set_head lst nx ;;
    let* d := get_data temp in
    free d ;;
    free temp.

(** [while (current->next->next != NULL) current = current->next;] *)
Fixpoint walk_to_penultimate (fuel : nat) (current : ptr) : M ptr :=
  match fuel with
  | O => diverge
  | S fuel' =>
      let* nx := get_next current in
      let* nxnx := get_next nx in
      if nxnx =? NULL then ret current
      else let* nx := get_next current in walk_to_penultimate fuel' nx
  end.

Definition free_at_end (lst : ptr) : M unit :=
  let* hd := get_head lst in
  if hd =? NULL then ret tt
  else
    let* hd := get_head lst in
    let* nx := get_next hd in
    if nx =? NULL then
      let* hd := get_head lst in
      let* d := get_data hd in
      free d ;;
      let* hd := get_head lst in
      free hd ;;
      set_head lst NULL
    else
      let* current := get_head lst in
      let* fuel := loop_bound in
      let* current := walk_to_penultimate fuel current in
      let* nx := get_next current in
      let* d := get_data nx in
      free d ;;
      let* nx := get_next current in
      free nx ;;
      set_next current NULL.

(** The [for] loop of [free_at_index], run for [n] iterations; [None] when
    the body hits [current->next == NULL]. *)
Fixpoint walk_free (n : nat) (current : ptr) : M (option ptr) :=
  match n with
  | O => ret (Some current)
  | S n' =>
      let* nx := get_next current in
      if nx =? NULL then ret None
      else let* nx := get_next current in walk_free n' nx
  end.

Definition free_at_index (lst : ptr) (index : N) : M unit :=
  let* hd := get_head lst in
  if hd =? NULL then ret tt
  else if index =? 0 then free_at_front lst
  else
    let* current := get_head lst in
    let* r := walk_free (N.to_nat (index - 1)) current in
    match r with
    | None => ret tt
    | Some current =>
        let* nx := get_next current in
        if nx =? NULL then ret tt
        else
          let* temp := get_next current in
          let* tn := get_next temp in
          set_next current tn ;;
          let* d := get_data temp in
          free d ;;
          free temp
    end.

(** [length++] on a [size_t]. *)
Definition size_t_incr (n : N) : N := (n + 1) mod (SIZE_MAX + 1).

Fixpoint count_nodes (fuel : nat) (length : N) (current : ptr) : M N :=
  match fuel with
  | O => diverge
  | S fuel' =>
      if current =? NULL then ret length
      else
        let* nx := get_next current in
        count_nodes fuel' (size_t_incr length) nx
  end.

Definition sll_len (lst : ptr) : M N :=
  let* current := get_head lst in
  let* fuel := loop_bound in
  count_nodes fuel 0 current.

Fixpoint print_nodes (fuel : nat) (current : ptr) : M unit :=
  match fuel with
  | O => diverge
  | S fuel' =>
      if current =? NULL then ret tt
      else
        let* d := get_data current in
        call_print_func d ;;
        let* nx := get_next current in
        print_nodes fuel' nx
  end.

Definition NULL_line : string := String.append "NULL" (String "010"%char EmptyString).

Definition print_sllist (lst : ptr) : M unit :=
  let* current := get_head lst in
  let* fuel := loop_bound in
  print_nodes fuel current ;;
  emit (Printf NULL_line).

(** ** The sequence of operations of a test run *)

Inductive op :=
| Insert_front (data : option (list byte))
| Insert_end (data : option (list byte))
| Insert_at_index (data : option (list byte)) (index : N)
| Free_at_front
| Free_at_end
| Free_at_index (index : N).

Definition run_op (lst : ptr) (o : op) : M unit :=
  match o with
  | Insert_front d => insert_front lst d
  | Insert_end d => insert_end lst d
  | Insert_at_index d i => insert_at_index lst d i
  | Free_at_front => free_at_front lst
  | Free_at_end => free_at_end lst
  | Free_at_index i => free_at_index lst i
  end.

Definition is_insertion (o : op) : bool :=
  match o with
  | Insert_front _ | Insert_end _ | Insert_at_index _ _ => true
  | _ => false
  end.

(** ** Well-formed lists

    A chain is described by its links in order: where the node lives,
    where its payload lives, and the bytes stored there. *)

Record link := Link { node_at : ptr; data_at : ptr; value : list byte }.

Definition first (ns : list link) (q : ptr) : ptr :=
  match ns with [] => q | n :: _ => node_at n end.

(** The links [ns] are laid out in [h] as a chain that ends with the
    pointer [q]. *)
Fixpoint lseg (h : gmap N object) (ns : list link) (q : ptr) : Prop :=
  match ns with
  | [] => True
  | n :: ns' =>
      h !! node_at n = Some (ObjNode {| data := data_at n; next := first ns' q |}) /\
      h !! data_at n = Some (ObjBytes (value n)) /\
      lseg h ns' q
  end.

Fixpoint footprint (ns : list link) : list N :=
  match ns with
  | [] => []
  | n :: ns' => node_at n :: data_at n :: footprint ns'
  end.

Definition good_link (sz : N) (n : link) : Prop :=
  node_at n <> NULL /\ data_at n <> NULL /\ node_at n <= SIZE_MAX /\
  N.of_nat (length (value n)) = sz.

(** [lst] points to a list descriptor with element size [sz] whose chain
    is [ns]. *)
Record is_list (m : mem) (lst : ptr) (sz : N) (ns : list link) : Prop := IsList {
  il_nonnull : lst <> NULL;
  il_desc : heap m !! lst = Some (ObjList {| head := first ns NULL; data_size := sz |});
  il_chain : lseg (heap m) ns NULL;
  il_nodup : NoDup (footprint ns);
  il_good : Forall (good_link sz) ns
}.

(** The element sequence of the list. *)
Definition elements (ns : list link) : list (list byte) := map value ns.

(** A [void*] argument the insert functions can copy [sz] bytes from. *)
Definition readable (sz : N) (data : option (list byte)) : Prop :=
  match data with
  | None => True
  | Some src => sz <= N.of_nat (length src)
  end.

(** What a traversal of the chain [ns] shows to the outside. *)
Definition visits (ns : list link) : list event :=
  map (fun n => Call_print_func (data_at n) (Some (value n))) ns.

(** The two allocations of an insert function: either one of them fails,
    or they deliver the node [a] and the payload storage [d]. *)
Inductive alloc_failure (sz : N) (m : mem) : Prop :=
| node_alloc_fails m1 :
    malloc fresh_node m = Done NULL m1 -> alloc_failure sz m
| payload_alloc_fails a m1 m2 :
    malloc fresh_node m = Done a m1 -> a <> NULL ->
    malloc (fresh_bytes sz) m1 = Done NULL m2 -> alloc_failure sz m.

Definition allocates (sz : N) (m : mem) (a d : ptr) : Prop :=
  exists m1 m2,
    malloc fresh_node m = Done a m1 /\ a <> NULL /\
    malloc (fresh_bytes sz) m1 = Done d m2 /\ d <> NULL.

(** The link an insert function builds from the caller's bytes. *)
Definition new_link (sz : N) (a d : ptr) (src : list byte) : link :=
  {| node_at := a; data_at := d; value := take (N.to_nat sz) src |}.

(** The memory after the link [new] has been put at position [i] of the
    chain [ns] of the list [lst], and after the link at position [i] has
    been taken out. *)
Definition heap_insert (h : gmap N object) (lst : ptr) (sz : N)
    (ns : list link) (i : nat) (new : link) : gmap N object :=
  let h1 :=
    <[node_at new := ObjNode {| data := data_at new; next := first (drop i ns) NULL |}]>
      (<[data_at new := ObjBytes (value new)]> h) in
  match i with
  | O => <[lst := ObjList {| head := node_at new; data_size := sz |}]> h1
  | S j =>
      match ns !! j with
      | Some p => <[node_at p := ObjNode {| data := data_at p; next := node_at new |}]> h1
      | None => h1
      end
  end.

Definition heap_remove (h : gmap N object) (lst : ptr) (sz : N)
    (ns : list link) (i : nat) : gmap N object :=
  match ns !! i with
  | None => h
  | Some t =>
      let after := first (drop (S i) ns) NULL in
      let h1 :=
        match i with
        | O => <[lst := ObjList {| head := after; data_size := sz |}]> h
        | S j =>
            match ns !! j with
            | Some p => <[node_at p := ObjNode {| data := data_at p; next := after |}]> h
            | None => h
            end
        end in
      delete (node_at t) (delete (data_at t) h1)
  end.

(** The insert functions in two parts.  Their common beginning: the
    argument check, the two allocations, the copy; [None] stands for the
    early [return]s. *)
Definition new_node_for (lst : ptr) (data : option (list byte)) : M (option ptr) :=
  if lst =? NULL then ret None
  else
    match data with
    | None => ret None
    | Some src =>
        let* new_node := malloc fresh_node in
        if new_node =? NULL then ret None
        else
          let* sz := get_data_size lst in
          let* d := malloc (fresh_bytes sz) in
          set_data new_node d ;;
          let* d := get_data new_node in
          if d =? NULL then free new_node ;; ret None
          else
            let* dst := get_data new_node in
            let* sz := get_data_size lst in
            memcpy dst src sz ;;
            ret (Some new_node)
    end.

(** [free(new_node->data); free(new_node);] *)
Definition release_node (new_node : ptr) : M unit :=
  let* d := get_data new_node in
  free d ;;
  free new_node.

(** The parts that follow the copy. *)
Definition link_front (lst new_node : ptr) : M unit :=
  let* hd := get_head lst in
  set_next new_node hd ;;
  set_head lst new_node.

Definition link_end (lst new_node : ptr) : M unit :=
  set_next new_node NULL ;;
  let* hd := get_head lst in
  if hd =? NULL then set_head lst new_node
  else
    let* current := get_head lst in
    let* fuel := loop_bound in
    let* current := walk_to_last fuel current in
    set_next current new_node.

Definition link_at_index (lst new_node : ptr) (index : N) : M unit :=
  set_next new_node NULL ;;
  if index =? 0 then
    let* hd := get_head lst in
    set_next new_node hd ;;
    set_head lst new_node
  else
    let* current := get_head lst in
    let* r := walk_insert (N.to_nat (index - 1)) current in
    match r with
    | None => release_node new_node
    | Some current =>
        if current =? NULL then release_node new_node
        else
          let* nx := get_next current in
          set_next new_node nx ;;
          set_next current new_node
    end.

(** The memory between the copy and the linking: the node [new] is
    allocated and filled in, and not yet part of any chain. *)
Definition prepared (m : mem) (new : link) (rest : list N) : mem :=
  {| heap := <[data_at new := ObjBytes (value new)]>
               (<[node_at new := ObjNode {| data := data_at new; next := NULL |}]> (heap m));
     oracle := rest; trace := trace m |}.

Definition fresh_link (m : mem) (new : link) : Prop :=
  node_at new <> NULL /\ data_at new <> NULL /\ node_at new <> data_at new /\
  node_at new <= SIZE_MAX /\
  heap m !! node_at new = None /\ heap m !! data_at new = None.

Definition op_readable (sz : N) (o : op) : Prop :=
  match o with
  | Insert_front d | Insert_end d | Insert_at_index d _ => readable sz d
  | _ => True
  end.

(** A test run: the operations in order, with a tally of those that
    succeeded.  The functions return nothing; as an allocation-tracking
    harness sees it, an insertion succeeded when it leaves more live
    allocations than it found, a removal when it leaves fewer. *)
Fixpoint run_ops (lst : ptr) (os : list op) (ins rem : N) : M (N * N) :=
  match os with
  | [] => ret (ins, rem)
  | o :: os' =>
      fun m =>
        match run_op lst o m with
        | Done _ m' =>
            let grew := (size (heap m) <? size (heap m'))%nat in
            let shrank := (size (heap m') <? size (heap m))%nat in
            run_ops lst os'
              (if is_insertion o && grew then ins + 1 else ins)
              (if negb (is_insertion o) && shrank then rem + 1 else rem) m'
        | Fault => Fault
        | Diverge => Diverge
        end
  end.

(** Where an insert function puts the new link, and what it copies. *)
Definition insert_pos (o : op) (ns : list link) : nat :=
  match o with
  | Insert_end _ => length ns
  | Insert_at_index _ i => N.to_nat i
  | _ => 0%nat
  end.

Definition op_data (o : op) : option (list byte) :=
  match o with
  | Insert_front d | Insert_end d | Insert_at_index d _ => d
  | _ => None
  end.

(** Which link a removal function takes out. *)
Definition remove_pos (o : op) (ns : list link) : nat :=
  match o with
  | Free_at_end => (length ns - 1)%nat
  | Free_at_index i => N.to_nat i
  | _ => 0%nat
  end.

(** A memory with nothing allocated, no allocation to come, no output. *)
Definition empty_mem : mem := {| heap := ∅; oracle := []; trace := [] |}.

(** The payloads shown to [print_func], in the order of the calls. *)
Definition visited (t : list event) : list (option (list byte)) :=
  flat_map (fun e => match e with
                     | Call_print_func _ bs => [bs]
                     | Printf _ => []
                     end) t.

(** The allocator can serve the next [k] requests: its next [k] proposals
    are distinct addresses that can be handed out. *)
Definition supply (m : mem) (k : nat) : Prop :=
  (k <= length (oracle m))%nat /\
  NoDup (take k (oracle m)) /\
  Forall (fun a => usable a (heap m) = true) (take k (oracle m)).

(** The element size recorded in the list descriptor. *)
Definition element_size (m : mem) (lst : ptr) : option N :=
  match heap m !! lst with
  | Some (ObjList l) => Some (data_size l)
  | _ => None
  end.

(** Concrete memories: a list at address 16 holding the one-byte element
    "A", and a memory in which nothing is allocated yet. *)
Definition sample_heap : gmap N object :=
  <[16 := ObjList {| head := 32; data_size := 1 |}]>
    (<[32 := ObjNode {| data := 48; next := NULL |}]>
       (<[48 := ObjBytes ["A"%byte]]> ∅)).

Definition sample_chain : list link :=
  [{| node_at := 32; data_at := 48; value := ["A"%byte] |}].

Definition sample_mem : mem :=
  {| heap := sample_heap; oracle := [64; 80; 96; 112]; trace := [] |}.

(** The same list with an allocator that has one address left. *)
Definition starved_mem : mem :=
  {| heap := sample_heap; oracle := [64]; trace := [] |}.

Definition blank_mem : mem :=
  {| heap := ∅; oracle := [16; 32; 48; 64; 80; 96; 112]; trace := [] |}.

Definition blank_list_mem : mem :=
  {| heap := <[16 := ObjList {| head := NULL; data_size := 1 |}]> ∅;
     oracle := [32; 48; 64; 80; 96; 112]; trace := [] |}.

(** A test run on a fresh list. *)
Definition sample_run : list op :=
  [Insert_end (Some ["A"%byte]); Insert_front (Some ["B"%byte]); Free_at_index 5;
   Free_at_end; Insert_at_index (Some ["C"%byte]) 7; Insert_front None].

(** A list at address 16 holding "A" then "B", and a memory with two
    lists: the one-element list at 16 and a list at 128 holding "Z". *)
Definition pair_chain : list link :=
  [{| node_at := 32; data_at := 48; value := ["A"%byte] |};
   {| node_at := 64; data_at := 80; value := ["B"%byte] |}].

Definition pair_mem : mem :=
  {| heap :=
       <[16 := ObjList {| head := 32; data_size := 1 |}]>
         (<[32 := ObjNode {| data := 48; next := 64 |}]>
            (<[48 := ObjBytes ["A"%byte]]>
               (<[64 := ObjNode {| data := 80; next := NULL |}]>
                  (<[80 := ObjBytes ["B"%byte]]> ∅))));
     oracle := [96; 112]; trace := [] |}.

Definition other_chain : list link :=
  [{| node_at := 144; data_at := 160; value := ["Z"%byte; "Z"%byte] |}].

Definition two_lists_mem : mem :=
  {| heap :=
       <[128 := ObjList {| head := 144; data_size := 2 |}]>
         (<[144 := ObjNode {| data := 160; next := NULL |}]>
            (<[160 := ObjBytes ["Z"%byte; "Z"%byte]]> sample_heap));
     oracle := [64; 80]; trace := [] |}.

(** ** Running statements *)

Arguments with_heap _ _ /.

Lemma bind_run {A B} (c : M A) (k : A -> M B) m a m' r :
  c m = Done a m' -> k a m' = r -> bind c k m = r.
Proof. intros Hc Hk. unfold bind. now rewrite Hc. Qed.

Lemma bind_done {A B} (c : M A) (k : A -> M B) m a m' :
  c m = Done a m' -> bind c k m = k a m'.
Proof. intros Hc. unfold bind. now rewrite Hc. Qed.

Lemma bind_fault {A B} (c : M A) (k : A -> M B) m :
  c m = Fault -> bind c k m = Fault.
Proof. intros Hc. unfold bind. now rewrite Hc. Qed.

Lemma load_node_run p n m :
  heap m !! p = Some (ObjNode n) -> load_node p m = Done n m.
Proof. intros H. unfold load_node, bind, load. now rewrite H. Qed.

Lemma load_list_run p l m :
  heap m !! p = Some (ObjList l) -> load_list p m = Done l m.
Proof. intros H. unfold load_list, bind, load. now rewrite H. Qed.

Lemma get_next_run p n m :
  heap m !! p = Some (ObjNode n) -> get_next p m = Done (next n) m.
Proof. intros H. unfold get_next. eapply bind_run; [by apply load_node_run|done]. Qed.

Lemma get_data_run p n m :
  heap m !! p = Some (ObjNode n) -> get_data p m = Done (data n) m.
Proof. intros H. unfold get_data. eapply bind_run; [by apply load_node_run|done]. Qed.

Lemma store_run p o o' m :
  heap m !! p = Some o ->
  store p o' m = Done tt (with_heap (<[p := o']> (heap m)) m).
Proof. intros H. unfold store. now rewrite H. Qed.

Lemma set_next_run p v n m :
  heap m !! p = Some (ObjNode n) ->
  set_next p v m =
  Done tt (with_heap (<[p := ObjNode {| data := data n; next := v |}]> (heap m)) m).
Proof.
  intros H. unfold set_next.
  eapply bind_run; [by apply load_node_run|]. by eapply store_run.
Qed.

Lemma set_data_run p v n m :
  heap m !! p = Some (ObjNode n) ->
  set_data p v m =
  Done tt (with_heap (<[p := ObjNode {| data := v; next := next n |}]> (heap m)) m).
Proof.
  intros H. unfold set_data.
  eapply bind_run; [by apply load_node_run|]. by eapply store_run.
Qed.

Lemma get_head_run p l m :
  heap m !! p = Some (ObjList l) -> get_head p m = Done (head l) m.
Proof. intros H. unfold get_head. eapply bind_run; [by apply load_list_run|done]. Qed.

Lemma get_data_size_run p l m :
  heap m !! p = Some (ObjList l) -> get_data_size p m = Done (data_size l) m.
Proof. intros H. unfold get_data_size. eapply bind_run; [by apply load_list_run|done]. Qed.

Lemma set_head_run p v l m :
  heap m !! p = Some (ObjList l) ->
  set_head p v m =
  Done tt (with_heap (<[p := ObjList {| head := v; data_size := data_size l |}]> (heap m)) m).
Proof.
  intros H. unfold set_head.
  eapply bind_run; [by apply load_list_run|]. by eapply store_run.
Qed.

Lemma set_data_size_run p v l m :
  heap m !! p = Some (ObjList l) ->
  set_data_size p v m =
  Done tt (with_heap (<[p := ObjList {| head := head l; data_size := v |}]> (heap m)) m).
Proof.
  intros H. unfold set_data_size.
  eapply bind_run; [by apply load_list_run|]. by eapply store_run.
Qed.

Lemma free_run p o m :
  p <> NULL -> heap m !! p = Some o ->
  free p m = Done tt (with_heap (delete p (heap m)) m).
Proof.
  intros Hp H. unfold free.
  destruct (N.eqb_spec p NULL) as [->|_]; [done|]. now rewrite H.
Qed.

Lemma memcpy_run dst src n old m :
  heap m !! dst = Some (ObjBytes old) ->
  n <= N.of_nat (length src) -> n <= N.of_nat (length old) ->
  memcpy dst src n m =
  Done tt (with_heap (<[dst := ObjBytes (take (N.to_nat n) src ++ drop (N.to_nat n) old)]> (heap m)) m).
Proof.
  intros H Hs Ho. unfold memcpy.
  eapply bind_run; [unfold load; by rewrite H|].
  apply N.leb_le in Hs, Ho. rewrite Hs, Ho. simpl. by eapply store_run.
Qed.

Lemma eqb_NULL_false p : p <> NULL -> (p =? NULL) = false.
Proof. intros H. by apply N.eqb_neq. Qed.

(** ** Chains *)

Lemma first_app xs ys q : first (xs ++ ys) q = first xs (first ys q).
Proof. by destruct xs. Qed.

Lemma footprint_app xs ys : footprint (xs ++ ys) = footprint xs ++ footprint ys.
Proof. induction xs as [|n xs IH]; simpl; [done|]. by rewrite IH. Qed.

Lemma footprint_length ns : length (footprint ns) = (2 * length ns)%nat.
Proof. induction ns as [|n ns IH]; simpl; lia. Qed.

Lemma lseg_app h xs ys q :
  lseg h (xs ++ ys) q <-> lseg h xs (first ys q) /\ lseg h ys q.
Proof.
  induction xs as [|n xs IH]; simpl; [tauto|].
  rewrite first_app, IH. tauto.
Qed.

Lemma lseg_frame h h' ns q :
  (forall x, x ∈ footprint ns -> h' !! x = h !! x) ->
  lseg h ns q -> lseg h' ns q.
Proof.
  induction ns as [|n ns IH]; simpl; [done|].
  intros Hag (Hn & Hd & Hrest). repeat split.
  - rewrite Hag; [done|]. set_solver.
  - rewrite Hag; [done|]. set_solver.
  - apply IH; [|done]. intros x Hx. apply Hag. set_solver.
Qed.

Lemma lseg_footprint h ns q x :
  lseg h ns q -> x ∈ footprint ns ->
  (exists n, h !! x = Some (ObjNode n)) \/ (exists bs, h !! x = Some (ObjBytes bs)).
Proof.
  induction ns as [|n ns IH]; simpl; [set_solver|].
  intros (Hn & Hd & Hrest) Hx.
  apply elem_of_cons in Hx as [->|Hx]; [eauto|].
  apply elem_of_cons in Hx as [->|Hx]; [eauto|].
  by apply IH.
Qed.

Lemma lseg_live h ns q x : lseg h ns q -> x ∈ footprint ns -> is_Some (h !! x).
Proof.
  intros Hc Hx. destruct (lseg_footprint _ _ _ _ Hc Hx) as [[? ->]|[? ->]]; eauto.
Qed.

Lemma lseg_fresh h ns q x : lseg h ns q -> h !! x = None -> x ∉ footprint ns.
Proof.
  intros Hc Hx Hin. destruct (lseg_live _ _ _ _ Hc Hin) as [o Ho]. congruence.
Qed.

Lemma lseg_not_list h ns q x l :
  lseg h ns q -> h !! x = Some (ObjList l) -> x ∉ footprint ns.
Proof.
  intros Hc Hx Hin.
  destruct (lseg_footprint _ _ _ _ Hc Hin) as [[? ?]|[? ?]]; congruence.
Qed.

Lemma lseg_insert h ns q a o :
  a ∉ footprint ns -> lseg h ns q -> lseg (<[a := o]> h) ns q.
Proof.
  intros Ha. apply lseg_frame. intros x Hx.
  apply lookup_insert_ne. intros ->. done.
Qed.

Lemma lseg_delete h ns q a :
  a ∉ footprint ns -> lseg h ns q -> lseg (delete a h) ns q.
Proof.
  intros Ha. apply lseg_frame. intros x Hx.
  apply lookup_delete_ne. intros ->. done.
Qed.

(** Redirecting the [next] field of the last link of a segment. *)
Lemma lseg_relink h pre p q q' :
  NoDup (footprint (pre ++ [p])) ->
  lseg h (pre ++ [p]) q ->
  lseg (<[node_at p := ObjNode {| data := data_at p; next := q' |}]> h) (pre ++ [p]) q'.
Proof.
  rewrite footprint_app. simpl. intros Hnd Hc.
  apply lseg_app in Hc as [Hpre Hp]. simpl in Hp. destruct Hp as (Hn & Hd & _).
  apply NoDup_app in Hnd as (Hnd1 & Hdisj & Hnd2).
  apply lseg_app. split; simpl.
  - apply lseg_insert; [|done]. intros Hin. apply (Hdisj _ Hin). set_solver.
  - rewrite lookup_insert_eq. split; [done|]. split; [|done].
    rewrite lookup_insert_ne; [done|].
    apply NoDup_cons in Hnd2 as [Hne _]. set_solver.
Qed.

(** A chain cannot have more links than there are live cells. *)
Lemma live_size (h : gmap N object) (l : list N) :
  NoDup l -> (forall x, x ∈ l -> is_Some (h !! x)) -> (length l <= size h)%nat.
Proof.
  intros Hnd Hl.
  rewrite <- (size_dom (D := gset N) h), <- (size_list_to_set (C := gset N) l) by done.
  apply subseteq_size. intros x Hx. apply elem_of_dom, Hl.
  by apply elem_of_list_to_set in Hx.
Qed.

Lemma lseg_size h ns q :
  lseg h ns q -> NoDup (footprint ns) -> (length ns <= size h)%nat.
Proof.
  intros Hc Hnd.
  pose proof (live_size h (footprint ns) Hnd (fun x => lseg_live _ _ _ _ Hc)) as H.
  rewrite footprint_length in H. lia.
Qed.

(** Distinct non-null addresses up to [b]: there are at most [b]. *)
Lemma addresses_bounded (b : nat) (l : list nat) :
  NoDup l -> Forall (fun x => (1 <= x <= b)%nat) l -> (length l <= b)%nat.
Proof.
  intros Hnd Hall.
  assert (l ⊆+ seq 1 b) as Hsub.
  { apply NoDup_submseteq; [done|]. intros x Hx.
    rewrite Forall_forall in Hall. specialize (Hall x Hx).
    apply elem_of_seq. lia. }
  apply submseteq_length in Hsub. by rewrite length_seq in Hsub.
Qed.

Lemma nodes_in_footprint ns x : x ∈ map node_at ns -> x ∈ footprint ns.
Proof. induction ns as [|n ns IH]; simpl; set_solver. Qed.

Lemma footprint_nodes_NoDup ns : NoDup (footprint ns) -> NoDup (map node_at ns).
Proof.
  induction ns as [|n ns IH]; simpl; [constructor|].
  intros Hnd. apply NoDup_cons in Hnd as [Hn Hnd].
  apply NoDup_cons in Hnd as [_ Hnd]. apply NoDup_cons. split; [|by apply IH].
  intros Hin. apply Hn. apply elem_of_cons. right. by apply nodes_in_footprint.
Qed.

Lemma is_list_length m lst sz ns :
  is_list m lst sz ns -> N.of_nat (length ns) <= SIZE_MAX.
Proof.
  intros [_ _ _ Hnd Hgood].
  pose proof (addresses_bounded (N.to_nat SIZE_MAX) (map N.to_nat (map node_at ns))) as H.
  rewrite !length_map in H.
  enough (length ns <= N.to_nat SIZE_MAX)%nat by lia.
  apply H.
  - apply NoDup_fmap_2; [apply _|]. by apply footprint_nodes_NoDup.
  - apply Forall_map, Forall_map. eapply Forall_impl; [exact Hgood|].
    intros n (Hn & _ & Hb & _). simpl. unfold NULL in Hn. lia.
Qed.

(** ** The loops *)

Lemma good_head_nonnull sz n ns : Forall (good_link sz) (n :: ns) -> node_at n <> NULL.
Proof. intros H. apply Forall_cons in H as [(Hn & _) _]. done. Qed.

Lemma walk_insert_run sz k : forall ns m,
  lseg (heap m) ns NULL -> Forall (good_link sz) ns ->
  walk_insert k (first ns NULL) m =
  Done (if (k <=? length ns)%nat then Some (first (drop k ns) NULL) else None) m.
Proof.
  induction k as [|k IH]; intros ns m Hc Hg.
  - done.
  - destruct ns as [|n ns]; simpl.
    + done.
    + rewrite eqb_NULL_false by (by apply (good_head_nonnull sz n ns)).
      destruct Hc as (Hn & Hd & Hc). apply Forall_cons in Hg as [_ Hg].
      eapply bind_run; [by eapply get_next_run|]. simpl.
      by rewrite IH.
Qed.

Lemma walk_free_run sz k : forall n ns m,
  lseg (heap m) (n :: ns) NULL -> Forall (good_link sz) (n :: ns) ->
  walk_free k (node_at n) m =
  Done (if (k <? length (n :: ns))%nat
        then Some (first (drop k (n :: ns)) NULL) else None) m.
Proof.
  induction k as [|k IH]; intros n ns m Hc Hg.
  - simpl. done.
  - simpl. destruct Hc as (Hn & Hd & Hc). apply Forall_cons in Hg as [_ Hg].
    eapply bind_run; [by eapply get_next_run|]. simpl.
    destruct ns as [|n' ns].
    + done.
    + rewrite eqb_NULL_false by (by apply (good_head_nonnull sz n' ns)).
      eapply bind_run; [by eapply get_next_run|]. simpl.
      by rewrite (IH n' ns).
Qed.

Lemma walk_to_last_run sz pre : forall p fuel m,
  lseg (heap m) (pre ++ [p]) NULL -> Forall (good_link sz) (pre ++ [p]) ->
  (length pre < fuel)%nat ->
  walk_to_last fuel (first (pre ++ [p]) NULL) m = Done (node_at p) m.
Proof.
  induction pre as [|n pre IH]; intros p fuel m Hc Hg Hf;
    (destruct fuel as [|fuel]; [simpl in Hf; lia|]); simpl in *.
  - destruct Hc as (Hn & _).
    eapply bind_run; [by eapply get_next_run|]. done.
  - destruct Hc as (Hn & Hd & Hc). apply Forall_cons in Hg as [_ Hg].
    eapply bind_run; [by eapply get_next_run|]. simpl.
    assert (first (pre ++ [p]) NULL <> NULL) as Hne.
    { destruct pre; simpl in *; eapply good_head_nonnull; done. }
    rewrite eqb_NULL_false by done.
    eapply bind_run; [by eapply get_next_run|]. simpl.
    apply IH; [done|done|lia].
Qed.

Lemma walk_to_penultimate_run sz pre : forall p t fuel m,
  lseg (heap m) (pre ++ [p; t]) NULL -> Forall (good_link sz) (pre ++ [p; t]) ->
  (length pre < fuel)%nat ->
  walk_to_penultimate fuel (first (pre ++ [p; t]) NULL) m = Done (node_at p) m.
Proof.
  induction pre as [|n pre IH]; intros p t fuel m Hc Hg Hf;
    (destruct fuel as [|fuel]; [simpl in Hf; lia|]); simpl in *.
  - destruct Hc as (Hn & _ & Ht & _).
    eapply bind_run; [by eapply get_next_run|]. simpl.
    eapply bind_run; [by eapply get_next_run|]. done.
  - destruct Hc as (Hn & Hd & Hc). apply Forall_cons in Hg as [_ Hg].
    eapply bind_run; [by eapply get_next_run|]. simpl.
    assert (exists n' rest, pre ++ [p; t] = n' :: rest /\ first rest NULL <> NULL)
      as (n' & rest & Heq & Hne).
    { destruct pre as [|n' pre]; simpl.
      - exists p, [t]. split; [done|]. simpl in Hg.
        apply Forall_cons in Hg as [_ Hg]. eapply good_head_nonnull; done.
      - exists n', (pre ++ [p; t]). split; [done|]. simpl in Hg.
        apply Forall_cons in Hg as [_ Hg].
        destruct pre; simpl in *; eapply good_head_nonnull; done. }
    pose proof Hc as Hc'. rewrite Heq in Hc'. simpl in Hc'. destruct Hc' as (Hn' & _).
    rewrite Heq at 1. simpl.
    eapply bind_run; [by eapply get_next_run|]. simpl.
    rewrite eqb_NULL_false by done.
    eapply bind_run; [by eapply get_next_run|]. simpl.
    apply IH; [done|done|lia].
Qed.

Lemma count_nodes_run sz ns : forall fuel acc m,
  lseg (heap m) ns NULL -> Forall (good_link sz) ns ->
  (length ns < fuel)%nat -> acc + N.of_nat (length ns) <= SIZE_MAX ->
  count_nodes fuel acc (first ns NULL) m = Done (acc + N.of_nat (length ns)) m.
Proof.
  induction ns as [|n ns IH]; intros fuel acc m Hc Hg Hf Hb;
    (destruct fuel as [|fuel]; [simpl in Hf; lia|]); simpl in *.
  - unfold ret. f_equal. lia.
  - rewrite eqb_NULL_false by (by apply (good_head_nonnull sz n ns)).
    destruct Hc as (Hn & Hd & Hc). apply Forall_cons in Hg as [_ Hg].
    eapply bind_run; [by eapply get_next_run|]. simpl.
    assert (size_t_incr acc = acc + 1) as ->.
    { unfold size_t_incr. apply N.mod_small. lia. }
    rewrite IH; [f_equal; lia|done|done|lia|lia].
Qed.

Lemma print_nodes_run sz ns : forall fuel m,
  lseg (heap m) ns NULL -> Forall (good_link sz) ns ->
  (length ns < fuel)%nat ->
  print_nodes fuel (first ns NULL) m =
  Done tt {| heap := heap m; oracle := oracle m; trace := trace m ++ visits ns |}.
Proof.
  induction ns as [|n ns IH]; intros fuel m Hc Hg Hf;
    (destruct fuel as [|fuel]; [simpl in Hf; lia|]); simpl in *.
  - unfold ret. rewrite app_nil_r. by destruct m.
  - rewrite eqb_NULL_false by (by apply (good_head_nonnull sz n ns)).
    destruct Hc as (Hn & Hd & Hc). apply Forall_cons in Hg as [_ Hg].
    eapply bind_run; [by eapply get_data_run|]. simpl.
    eapply bind_run; [reflexivity|]. simpl.
    eapply bind_run; [by eapply get_next_run|]. simpl.
    rewrite IH; [|done|done|lia]. simpl.
    unfold pointee. rewrite Hd. by rewrite <- app_assoc.
Qed.

(** ** The allocations of an insert function *)

Lemma mem_ext m h o t :
  heap m = h -> oracle m = o -> trace m = t -> m = {| heap := h; oracle := o; trace := t |}.
Proof. destruct m. simpl. by intros -> -> ->. Qed.

Lemma usable_spec a h :
  usable a h = true <-> a <> NULL /\ a <= SIZE_MAX /\ h !! a = None.
Proof.
  unfold usable. rewrite !andb_true_iff, negb_true_iff, N.eqb_neq, N.leb_le.
  destruct (h !! a); intuition congruence.
Qed.

Lemma malloc_cases init m :
  (exists rest, malloc init m = Done NULL {| heap := heap m; oracle := rest; trace := trace m |}) \/
  (exists a rest, oracle m = a :: rest /\ usable a (heap m) = true /\
     malloc init m =
     Done a {| heap := <[a := init]> (heap m); oracle := rest; trace := trace m |}).
Proof.
  unfold malloc. destruct (oracle m) as [|a rest] eqn:Ho.
  - left. exists []. f_equal. by apply mem_ext.
  - destruct (usable a (heap m)) eqn:Hu; [right|left]; eauto.
Qed.

Lemma take_fresh_bytes (sz : N) (src : list byte) :
  take (N.to_nat sz) src ++ drop (N.to_nat sz) (replicate (N.to_nat sz) x00) =
  take (N.to_nat sz) src.
Proof. rewrite drop_replicate, Nat.sub_diag. simpl. apply app_nil_r. Qed.

Lemma memcpy_overread dst src n old m :
  heap m !! dst = Some (ObjBytes old) ->
  N.of_nat (length src) < n ->
  memcpy dst src n m = Fault.
Proof.
  intros H Hs. unfold memcpy.
  eapply bind_run; [unfold load; by rewrite H|].
  apply N.leb_gt in Hs. by rewrite Hs.
Qed.

(** What [new_node_for] does on a live descriptor: it gives up and leaves
    the memory as it was, or it has the node [a] and the payload storage
    [d] and copies; the copy reads past the caller's storage when that is
    shorter than the element size. *)
Lemma new_node_for_cases lst src l m :
  heap m !! lst = Some (ObjList l) -> lst <> NULL ->
  (exists rest,
     alloc_failure (data_size l) m /\
     new_node_for lst (Some src) m =
     Done None {| heap := heap m; oracle := rest; trace := trace m |}) \/
  (exists a d rest,
     allocates (data_size l) m a d /\
     oracle m = a :: d :: rest /\
     fresh_link m (new_link (data_size l) a d src) /\
     ((data_size l <= N.of_nat (length src) /\
       new_node_for lst (Some src) m =
       Done (Some a) (prepared m (new_link (data_size l) a d src) rest)) \/
      (N.of_nat (length src) < data_size l /\
       new_node_for lst (Some src) m = Fault))).
Proof.
  intros Hl Hnn. unfold new_node_for.
  rewrite (eqb_NULL_false lst Hnn).
  destruct (malloc_cases fresh_node m) as [(rest & Hm)|(a & rest & Ho & Hu & Hm)].
  { left. exists rest. split; [by eapply node_alloc_fails|].
    eapply bind_run; [exact Hm|]. done. }
  apply usable_spec in Hu as Hu'. destruct Hu' as (Ha & Hab & Hfa).
  assert (lst <> a) as Hla by congruence.
  rewrite (bind_done _ _ _ _ _ Hm). simpl.
  rewrite (eqb_NULL_false a Ha).
  set (m1 := {| heap := <[a := fresh_node]> (heap m); oracle := rest; trace := trace m |}) in *.
  assert (heap m1 !! lst = Some (ObjList l)) as Hl1.
  { simpl. by rewrite lookup_insert_ne. }
  rewrite (bind_done _ _ _ _ _ (get_data_size_run _ _ _ Hl1)).
  destruct (malloc_cases (fresh_bytes (data_size l)) m1)
    as [(rest' & Hm')|(d & rest' & Ho' & Hu' & Hm')].
  { left. exists rest'. split; [by eapply payload_alloc_fails|].
    eapply bind_run; [exact Hm'|]. simpl.
    eapply bind_run; [eapply set_data_run; simpl; by rewrite lookup_insert_eq|]. simpl.
    eapply bind_run; [eapply get_data_run; simpl; by rewrite lookup_insert_eq|]. simpl.
    eapply bind_run; [eapply free_run; [exact Ha|simpl; by rewrite lookup_insert_eq]|].
    simpl. unfold ret. f_equal. f_equal.
    rewrite insert_insert_eq, delete_insert_eq. by apply delete_id. }
  apply usable_spec in Hu' as Hu''. destruct Hu'' as (Hd & Hdb & Hfd). simpl in Hfd.
  assert (a <> d) as Had.
  { intros ->. by rewrite lookup_insert_eq in Hfd. }
  rewrite lookup_insert_ne in Hfd by done.
  assert (lst <> d) as Hld by congruence.
  right. exists a, d, rest'. split; [by eexists m1, _|].
  split; [simpl in Ho'; by rewrite Ho, Ho'|].
  split; [by repeat split|].
  rewrite (bind_done _ _ _ _ _ Hm'). simpl.
  erewrite (bind_done (set_data a d))
    by (eapply set_data_run; simpl; rewrite lookup_insert_ne by done; by rewrite lookup_insert_eq).
  simpl.
  erewrite (bind_done (get_data a))
    by (eapply get_data_run; simpl; by rewrite lookup_insert_eq).
  simpl. rewrite (eqb_NULL_false d Hd).
  erewrite (bind_done (get_data a))
    by (eapply get_data_run; simpl; by rewrite lookup_insert_eq).
  simpl.
  erewrite (bind_done (get_data_size lst))
    by (eapply get_data_size_run; simpl; by rewrite !lookup_insert_ne).
  destruct (N.le_gt_cases (data_size l) (N.of_nat (length src))) as [Hsrc|Hsrc];
    [left|right]; (split; [done|]).
  - eapply bind_run.
    { eapply memcpy_run; simpl.
      - rewrite lookup_insert_ne by done. by rewrite lookup_insert_eq.
      - done.
      - rewrite length_replicate. lia. }
    simpl. unfold ret, prepared. f_equal. f_equal. simpl.
    rewrite take_fresh_bytes.
    apply map_eq. intros i.
    destruct (decide (i = d)) as [->|]; [by rewrite !lookup_insert_eq|].
    rewrite (lookup_insert_ne _ d i) by done.
    rewrite (lookup_insert_ne _ d i) by done.
    destruct (decide (i = a)) as [->|]; [by rewrite !lookup_insert_eq|].
    by rewrite !lookup_insert_ne.
  - apply bind_fault.
    eapply memcpy_overread; [|done]. simpl.
    rewrite lookup_insert_ne by done. by rewrite lookup_insert_eq.
Qed.

(** ** Linking a prepared node *)

(** Each insert function is its beginning followed by its linking part. *)
Lemma insert_front_parts lst data m :
  insert_front lst data m =
  (let* r := new_node_for lst data in
   match r with None => ret tt | Some n => link_front lst n end) m.
Proof.
  unfold insert_front, new_node_for, link_front.
  destruct (lst =? NULL); [reflexivity|]. destruct data as [src|]; [|reflexivity].
  unfold bind. destruct (malloc fresh_node m) as [a m1| |]; try reflexivity.
  destruct (a =? NULL); [reflexivity|].
  destruct (get_data_size lst m1) as [sz m2| |]; try reflexivity.
  destruct (malloc (fresh_bytes sz) m2) as [d m3| |]; try reflexivity.
  destruct (set_data a d m3) as [[] m4| |]; try reflexivity.
  destruct (get_data a m4) as [d' m5| |]; try reflexivity.
  destruct (d' =? NULL).
  { destruct (free a m5) as [[] m6| |]; reflexivity. }
  destruct (get_data a m5) as [dst m6| |]; try reflexivity.
  destruct (get_data_size lst m6) as [sz' m7| |]; try reflexivity.
  destruct (memcpy dst src sz' m7) as [[] m8| |]; reflexivity.
Qed.

Lemma insert_end_parts lst data m :
  insert_end lst data m =
  (let* r := new_node_for lst data in
   match r with None => ret tt | Some n => link_end lst n end) m.
Proof.
  unfold insert_end, new_node_for, link_end.
  destruct (lst =? NULL); [reflexivity|]. destruct data as [src|]; [|reflexivity].
  unfold bind. destruct (malloc fresh_node m) as [a m1| |]; try reflexivity.
  destruct (a =? NULL); [reflexivity|].
  destruct (get_data_size lst m1) as [sz m2| |]; try reflexivity.
  destruct (malloc (fresh_bytes sz) m2) as [d m3| |]; try reflexivity.
  destruct (set_data a d m3) as [[] m4| |]; try reflexivity.
  destruct (get_data a m4) as [d' m5| |]; try reflexivity.
  destruct (d' =? NULL).
  { destruct (free a m5) as [[] m6| |]; reflexivity. }
  destruct (get_data a m5) as [dst m6| |]; try reflexivity.
  destruct (get_data_size lst m6) as [sz' m7| |]; try reflexivity.
  destruct (memcpy dst src sz' m7) as [[] m8| |]; reflexivity.
Qed.

Lemma insert_at_index_parts lst data index m :
  insert_at_index lst data index m =
  (let* r := new_node_for lst data in
   match r with None => ret tt | Some n => link_at_index lst n index end) m.
Proof.
  unfold insert_at_index, new_node_for, link_at_index, release_node.
  destruct (lst =? NULL); [reflexivity|]. destruct data as [src|]; [|reflexivity].
  unfold bind. destruct (malloc fresh_node m) as [a m1| |]; try reflexivity.
  destruct (a =? NULL); [reflexivity|].
  destruct (get_data_size lst m1) as [sz m2| |]; try reflexivity.
  destruct (malloc (fresh_bytes sz) m2) as [d m3| |]; try reflexivity.
  destruct (set_data a d m3) as [[] m4| |]; try reflexivity.
  destruct (get_data a m4) as [d' m5| |]; try reflexivity.
  destruct (d' =? NULL).
  { destruct (free a m5) as [[] m6| |]; reflexivity. }
  destruct (get_data a m5) as [dst m6| |]; try reflexivity.
  destruct (get_data_size lst m6) as [sz' m7| |]; try reflexivity.
  destruct (memcpy dst src sz' m7) as [[] m8| |]; reflexivity.
Qed.

Ltac heap_eq :=
  apply map_eq; intros ?;
  repeat first [rewrite lookup_insert | rewrite lookup_delete];
  repeat case_decide; simplify_eq; try done; try congruence.

Ltac lookup_heap :=
  simpl; repeat first [rewrite lookup_insert | rewrite lookup_delete];
  repeat case_decide; simplify_eq; try done; try congruence.

Lemma link_front_run m lst sz ns new rest :
  is_list m lst sz ns -> fresh_link m new ->
  link_front lst (node_at new) (prepared m new rest) =
  Done tt {| heap := heap_insert (heap m) lst sz ns 0 new; oracle := rest; trace := trace m |}.
Proof.
  intros [Hnn Hl Hc Hnd Hg] (Ha & Hd & Had & Hab & Hfa & Hfd).
  assert (lst <> node_at new) as Hla by congruence.
  assert (lst <> data_at new) as Hld by congruence.
  unfold link_front.
  eapply bind_run; [eapply get_head_run; by lookup_heap|]. simpl.
  eapply bind_run; [eapply set_next_run; by lookup_heap|]. simpl.
  erewrite set_head_run by (by lookup_heap). simpl.
  f_equal. f_equal. unfold heap_insert. rewrite drop_0. heap_eq.
Qed.

Lemma lseg_lookup h q ns : forall j p,
  lseg h ns q -> ns !! j = Some p ->
  h !! node_at p = Some (ObjNode {| data := data_at p; next := first (drop (S j) ns) q |}) /\
  h !! data_at p = Some (ObjBytes (value p)).
Proof.
  induction ns as [|n ns IH]; intros j p Hc Hj; [done|].
  destruct Hc as (Hn & Hd & Hc). destruct j as [|j]; simpl in *.
  - simplify_eq. by rewrite drop_0.
  - by apply IH.
Qed.

Lemma footprint_lookup ns j p :
  ns !! j = Some p -> node_at p ∈ footprint ns /\ data_at p ∈ footprint ns.
Proof.
  revert j. induction ns as [|n ns IH]; intros [|j] Hj; simplify_eq/=.
  - set_solver.
  - destruct (IH _ Hj). set_solver.
Qed.

Lemma fresh_not_in m lst sz ns new :
  is_list m lst sz ns -> fresh_link m new ->
  (node_at new ∉ footprint ns) /\ (data_at new ∉ footprint ns) /\
  lst <> node_at new /\ lst <> data_at new /\ (lst ∉ footprint ns).
Proof.
  intros [Hnn Hl Hc Hnd Hg] (Ha & Hd & Had & Hab & Hfa & Hfd).
  repeat split; try congruence.
  - by eapply lseg_fresh.
  - by eapply lseg_fresh.
  - by eapply lseg_not_list.
Qed.

Lemma lseg_prepared m lst sz ns new rest :
  is_list m lst sz ns -> fresh_link m new ->
  lseg (heap (prepared m new rest)) ns NULL.
Proof.
  intros Hil Hf. destruct (fresh_not_in _ _ _ _ _ Hil Hf) as (Ha & Hd & _).
  destruct Hil as [Hnn Hl Hc Hnd Hg]. simpl.
  by apply lseg_insert, lseg_insert.
Qed.

Lemma link_end_run m lst sz ns new rest :
  is_list m lst sz ns -> fresh_link m new ->
  link_end lst (node_at new) (prepared m new rest) =
  Done tt {| heap := heap_insert (heap m) lst sz ns (length ns) new;
             oracle := rest; trace := trace m |}.
Proof.
  intros Hil Hf.
  pose proof (lseg_prepared _ _ _ _ _ rest Hil Hf) as Hc'.
  destruct (fresh_not_in _ _ _ _ _ Hil Hf) as (Hna & Hnd' & Hla & Hld & Hlf).
  destruct Hil as [Hnn Hl Hc Hnd Hg]. destruct Hf as (Ha & Hd & Had & Hab & Hfa & Hfd).
  unfold link_end.
  eapply bind_run; [eapply set_next_run; by lookup_heap|]. simpl.
  eapply bind_run; [eapply get_head_run; by lookup_heap|]. simpl.
  destruct (decide (ns = [])) as [->|Hne].
  { simpl. erewrite set_head_run by (by lookup_heap). simpl.
    f_equal. f_equal. unfold heap_insert. simpl. heap_eq. }
  destruct (exists_last Hne) as (pre & p & ->).
  assert (first (pre ++ [p]) NULL <> NULL) as Hfn.
  { destruct pre; simpl in *; eapply good_head_nonnull; done. }
  rewrite (eqb_NULL_false _ Hfn).
  eapply bind_run; [eapply get_head_run; by lookup_heap|]. simpl.
  eapply bind_run; [reflexivity|]. cbn beta.
  assert ((pre ++ [p]) !! length pre = Some p) as Hp by apply list_lookup_middle, eq_refl.
  destruct (footprint_lookup _ _ _ Hp) as [Hpn Hpd].
  destruct (lseg_lookup _ _ _ _ _ Hc Hp) as [Hpl _].
  assert (node_at p <> node_at new) by (intros E; rewrite E in Hpn; done).
  assert (node_at p <> data_at new) by (intros E; rewrite E in Hpn; done).
  eapply bind_run.
  { eapply (walk_to_last_run sz pre p).
    - simpl. by apply lseg_insert, lseg_insert, lseg_insert.
    - done.
    - simpl. apply Nat.lt_succ_r.
      etrans; [|eapply (lseg_size _ (pre ++ [p]) NULL)].
      + rewrite length_app. simpl. lia.
      + by apply lseg_insert, lseg_insert, lseg_insert.
      + done. }
  cbn beta. erewrite set_next_run.
  2:{ by lookup_heap. }
  simpl. f_equal. f_equal. unfold heap_insert.
  rewrite length_app, Nat.add_1_r, Hp. simpl.
  rewrite drop_ge by (rewrite length_app; simpl; lia). simpl.
  heap_eq.
Qed.

Ltac unfold_prims :=
  unfold get_head, get_next, get_data, set_next, set_head, set_data,
    load_node, load_list, load, store, bind, ret, fault; simpl.

Lemma link_at_index_zero lst n m :
  link_at_index lst n 0 m = link_front lst n m.
Proof.
  unfold link_at_index, link_front. simpl. unfold_prims.
  destruct (heap m !! n) as [[l|nd|bs]|] eqn:Hn; simpl.
  - destruct (heap m !! lst) as [[l'|nd'|bs']|]; simpl; try reflexivity. rewrite Hn. reflexivity.
  - rewrite Hn. simpl. destruct (decide (lst = n)) as [->|Hne].
    + rewrite lookup_insert_eq, Hn. reflexivity.
    + rewrite lookup_insert_ne by done.
      destruct (heap m !! lst) as [[l'|nd'|bs']|] eqn:Hl; simpl; try done.
      rewrite lookup_insert_eq, Hn. simpl. rewrite lookup_insert_eq. simpl.
      rewrite !lookup_insert_ne by done. rewrite Hl. simpl.
      rewrite Hn. simpl. rewrite lookup_insert_ne by congruence. rewrite ?Hl. simpl.
      rewrite ?lookup_insert_ne by congruence. rewrite ?Hl. simpl.
      rewrite insert_insert_eq. assert (n <> lst) as Hne' by congruence.
      rewrite (lookup_insert_ne _ _ _ _ Hne'), Hl. done.
  - destruct (heap m !! lst) as [[l'|nd'|bs']|]; simpl; try reflexivity. rewrite Hn. reflexivity.
  - destruct (heap m !! lst) as [[l'|nd'|bs']|]; simpl; try reflexivity. rewrite Hn. reflexivity.
Qed.

Lemma release_prepared m new rest :
  fresh_link m new ->
  release_node (node_at new)
    {| heap := <[node_at new := ObjNode {| data := data_at new; next := NULL |}]>
                 (heap (prepared m new rest));
       oracle := rest; trace := trace m |} =
  Done tt {| heap := heap m; oracle := rest; trace := trace m |}.
Proof.
  intros (Ha & Hd & Had & Hab & Hfa & Hfd). unfold release_node.
  eapply bind_run; [eapply get_data_run; by lookup_heap|]. simpl.
  eapply bind_run; [eapply free_run; [done|by lookup_heap]|]. simpl.
  erewrite free_run; [|done|by lookup_heap]. simpl.
  f_equal. f_equal. heap_eq.
Qed.

Lemma link_at_index_run m lst sz ns new rest index :
  is_list m lst sz ns -> fresh_link m new ->
  (N.to_nat index <= length ns)%nat ->
  link_at_index lst (node_at new) index (prepared m new rest) =
  Done tt {| heap := heap_insert (heap m) lst sz ns (N.to_nat index) new;
             oracle := rest; trace := trace m |}.
Proof.
  intros Hil Hf Hi.
  destruct (N.eq_dec index 0) as [->|Hi0].
  { rewrite link_at_index_zero. by eapply link_front_run. }
  pose proof (lseg_prepared _ _ _ _ _ rest Hil Hf) as Hc'.
  destruct (fresh_not_in _ _ _ _ _ Hil Hf) as (Hna & Hnd' & Hla & Hld & Hlf).
  destruct Hil as [Hnn Hl Hc Hnd Hg]. destruct Hf as (Ha & Hd & Had & Hab & Hfa & Hfd).
  unfold link_at_index.
  eapply bind_run; [eapply set_next_run; by lookup_heap|]. simpl.
  rewrite (proj2 (N.eqb_neq index 0) Hi0).
  eapply bind_run; [eapply get_head_run; by lookup_heap|]. simpl.
  destruct (N.to_nat index) as [|k] eqn:Hk; [lia|].
  replace (N.to_nat (index - 1)) with k by lia.
  destruct (lookup_lt_is_Some_2 ns k) as [p Hp]; [lia|].
  destruct (footprint_lookup _ _ _ Hp) as [Hpn Hpd].
  destruct (lseg_lookup _ _ _ _ _ Hc Hp) as [Hpl _].
  assert (node_at p <> node_at new) by (intros E; rewrite E in Hpn; done).
  assert (node_at p <> data_at new) by (intros E; rewrite E in Hpn; done).
  assert (node_at p <> NULL) as Hpnn.
  { rewrite Forall_forall in Hg. apply (Hg p). by eapply list_elem_of_lookup_2. }
  eapply bind_run.
  { eapply (walk_insert_run sz); [|done]. simpl.
    by apply lseg_insert, lseg_insert, lseg_insert. }
  cbn beta. rewrite (proj2 (Nat.leb_le k (length ns))) by lia.
  rewrite (drop_S _ _ _ Hp). simpl.
  rewrite (eqb_NULL_false _ Hpnn).
  eapply bind_run; [eapply get_next_run; by lookup_heap|]. simpl.
  eapply bind_run; [eapply set_next_run; by lookup_heap|]. simpl.
  erewrite set_next_run by (by lookup_heap). simpl.
  f_equal. f_equal. unfold heap_insert. rewrite Hp. heap_eq.
Qed.

Lemma link_at_index_oob m lst sz ns new rest index :
  is_list m lst sz ns -> fresh_link m new ->
  (length ns < N.to_nat index)%nat ->
  link_at_index lst (node_at new) index (prepared m new rest) =
  Done tt {| heap := heap m; oracle := rest; trace := trace m |}.
Proof.
  intros Hil Hf Hi.
  pose proof (lseg_prepared _ _ _ _ _ rest Hil Hf) as Hc'.
  destruct (fresh_not_in _ _ _ _ _ Hil Hf) as (Hna & Hnd' & Hla & Hld & Hlf).
  pose proof Hf as Hf'.
  destruct Hil as [Hnn Hl Hc Hnd Hg]. destruct Hf as (Ha & Hd & Had & Hab & Hfa & Hfd).
  unfold link_at_index.
  eapply bind_run; [eapply set_next_run; by lookup_heap|]. simpl.
  rewrite (proj2 (N.eqb_neq index 0)) by lia.
  eapply bind_run; [eapply get_head_run; by lookup_heap|]. simpl.
  eapply bind_run.
  { eapply (walk_insert_run sz); [|done]. simpl.
    by apply lseg_insert, lseg_insert, lseg_insert. }
  cbn beta.
  destruct (Nat.leb_spec (N.to_nat (index - 1)) (length ns)) as [Hle|Hgt].
  - rewrite drop_ge by lia. simpl. by apply release_prepared.
  - by apply release_prepared.
Qed.

(** ** Removing a link *)

Lemma with_heap_id m : with_heap (heap m) m = m.
Proof. by destruct m. Qed.

Lemma footprint_lookup_ne ns : forall i j x y,
  NoDup (footprint ns) -> ns !! i = Some x -> ns !! j = Some y -> i <> j ->
  node_at x <> node_at y /\ node_at x <> data_at y /\
  data_at x <> node_at y /\ data_at x <> data_at y.
Proof.
  induction ns as [|n ns IH]; intros i j x y Hnd Hi Hj Hij; [done|].
  simpl in Hnd. apply NoDup_cons in Hnd as [Hn Hnd]. apply NoDup_cons in Hnd as [Hd Hnd].
  destruct i as [|i], j as [|j]; simplify_eq/=.
  - destruct (footprint_lookup _ _ _ Hj) as [Hy1 Hy2].
    repeat split; intros E; rewrite E in *; set_solver.
  - destruct (footprint_lookup _ _ _ Hi) as [Hx1 Hx2].
    repeat split; intros E; rewrite <- E in *; set_solver.
  - eapply IH; eauto.
Qed.

Lemma footprint_link_ne ns : forall i x,
  NoDup (footprint ns) -> ns !! i = Some x -> node_at x <> data_at x.
Proof.
  induction ns as [|n ns IH]; intros i x Hnd Hi; [done|].
  simpl in Hnd. apply NoDup_cons in Hnd as [Hn Hnd]. apply NoDup_cons in Hnd as [Hd Hnd].
  destruct i as [|i]; simplify_eq/=.
  - set_solver.
  - eapply IH; eauto.
Qed.

Lemma good_lookup sz ns i x :
  Forall (good_link sz) ns -> ns !! i = Some x -> good_link sz x.
Proof. intros Hg Hi. rewrite Forall_forall in Hg. apply Hg. by eapply list_elem_of_lookup_2. Qed.

Lemma free_at_front_run m lst sz ns :
  is_list m lst sz ns ->
  free_at_front lst m = Done tt (with_heap (heap_remove (heap m) lst sz ns 0) m).
Proof.
  intros [Hnn Hl Hc Hnd Hg]. unfold free_at_front.
  eapply bind_run; [by eapply get_head_run|]. simpl.
  destruct ns as [|t ns]; simpl.
  { unfold heap_remove. simpl. by destruct m. }
  pose proof (good_lookup sz (t :: ns) 0 t Hg eq_refl) as (Ht & Hd & _).
  pose proof (footprint_link_ne (t :: ns) 0 t Hnd eq_refl) as Htd.
  assert (lst ∉ footprint (t :: ns)) as Hlf by (by eapply lseg_not_list).
  assert (lst <> node_at t /\ lst <> data_at t) as [Hlt Hld] by set_solver.
  destruct Hc as (Hn & Hdt & Hc).
  rewrite (eqb_NULL_false _ Ht).
  eapply bind_run; [by eapply get_head_run|]. simpl.
  eapply bind_run; [by eapply get_head_run|]. simpl.
  eapply bind_run; [by eapply get_next_run|]. simpl.
  eapply bind_run; [by eapply set_head_run|]. simpl.
  eapply bind_run; [eapply get_data_run; by lookup_heap|]. simpl.
  eapply bind_run; [eapply free_run; [done|by lookup_heap]|]. simpl.
  erewrite free_run; [|done|by lookup_heap]. simpl.
  unfold heap_remove. simpl. by rewrite drop_0.
Qed.

Lemma free_at_end_run m lst sz ns :
  is_list m lst sz ns ->
  free_at_end lst m =
  Done tt (with_heap (heap_remove (heap m) lst sz ns (length ns - 1)) m).
Proof.
  intros [Hnn Hl Hc Hnd Hg]. unfold free_at_end.
  eapply bind_run; [by eapply get_head_run|]. simpl.
  destruct (decide (ns = [])) as [->|Hne].
  { unfold heap_remove. simpl. by destruct m. }
  assert (lst ∉ footprint ns) as Hlf by (by eapply lseg_not_list).
  destruct (exists_last Hne) as (ns' & t & ->).
  assert ((ns' ++ [t]) !! length ns' = Some t) as Hti by apply list_lookup_middle, eq_refl.
  destruct (footprint_lookup _ _ _ Hti) as [Htn Htd].
  pose proof (good_lookup _ _ _ _ Hg Hti) as (Ht & Hd & _).
  pose proof (footprint_link_ne _ _ _ Hnd Hti) as Htd'.
  destruct (lseg_lookup _ _ _ _ _ Hc Hti) as [Htl Hdl].
  rewrite drop_ge in Htl by (rewrite length_app; simpl; lia). simpl in Htl.
  assert (lst <> node_at t /\ lst <> data_at t) as [Hlt Hld].
  { split; intros E; rewrite E in Hlf; done. }
  assert (first (ns' ++ [t]) NULL <> NULL) as Hfn.
  { destruct ns'; simpl in *; eapply good_head_nonnull; done. }
  rewrite (eqb_NULL_false _ Hfn).
  eapply bind_run; [by eapply get_head_run|]. simpl.
  replace (length (ns' ++ [t]) - 1)%nat with (length ns') by (rewrite length_app; simpl; lia).
  destruct (decide (ns' = [])) as [->|Hne'].
  { simpl in *.
    eapply bind_run; [by eapply get_next_run|]. simpl.
    eapply bind_run; [by eapply get_head_run|]. simpl.
    eapply bind_run; [by eapply get_data_run|]. simpl.
    eapply bind_run; [by eapply free_run|]. simpl.
    eapply bind_run; [eapply get_head_run; by lookup_heap|]. simpl.
    eapply bind_run; [eapply free_run; [done|by lookup_heap]|]. simpl.
    erewrite set_head_run by (by lookup_heap). simpl.
    f_equal. f_equal. unfold heap_remove. simpl. heap_eq. }
  destruct (exists_last Hne') as (pre & p & ->).
  rewrite <- app_assoc in *. simpl in *.
  assert ((pre ++ [p; t]) !! length pre = Some p) as Hpi by apply list_lookup_middle, eq_refl.
  rewrite length_app in Hti. simpl in Hti. rewrite Nat.add_1_r in Hti.
  destruct (footprint_lookup _ _ _ Hpi) as [Hpn Hpd].
  pose proof (good_lookup _ _ _ _ Hg Hpi) as (Hp & _).
  destruct (lseg_lookup _ _ _ _ _ Hc Hpi) as [Hpl _].
  rewrite (drop_S _ _ _ Hti) in Hpl. simpl in Hpl.
  destruct (footprint_lookup_ne _ (length pre) (S (length pre)) p t Hnd Hpi Hti)
    as (Hpt1 & Hpt2 & Hpt3 & Hpt4); [lia|].
  assert (first (pre ++ [p; t]) NULL <> node_at t) as Hft.
  { destruct pre as [|n0 pre]; simpl; [done|].
    destruct (footprint_lookup_ne _ 0 (S (length (n0 :: pre))) n0 t Hnd eq_refl Hti)
      as (? & _); [lia|done]. }
  assert (exists nd, heap m !! first (pre ++ [p; t]) NULL = Some (ObjNode nd) /\
                     next nd = first (drop 1 (pre ++ [p; t])) NULL) as (nd & Hfl & Hnx).
  { destruct pre as [|n0 pre]; simpl in *; eexists; (split; [apply Hc|]); simpl; [done|].
    by rewrite drop_0. }
  eapply bind_run; [by eapply get_next_run|]. simpl. rewrite Hnx.
  assert (first (drop 1 (pre ++ [p; t])) NULL <> NULL) as Hsn.
  { destruct pre as [|n0 pre]; simpl; [done|]. rewrite drop_0.
    apply Forall_cons in Hg as [_ Hg].
    destruct pre; simpl in *; eapply good_head_nonnull; done. }
  rewrite (eqb_NULL_false _ Hsn).
  eapply bind_run; [by eapply get_head_run|]. simpl.
  eapply bind_run; [reflexivity|]. cbn beta.
  eapply bind_run.
  { eapply (walk_to_penultimate_run sz pre p t); [done|done|].
    apply Nat.lt_succ_r. etrans; [|by eapply (lseg_size _ (pre ++ [p; t]) NULL)].
    rewrite length_app. simpl. lia. }
  cbn beta.
  eapply bind_run; [by eapply get_next_run|]. simpl.
  eapply bind_run; [by eapply get_data_run|]. simpl.
  eapply bind_run; [by eapply free_run|]. simpl.
  eapply bind_run; [eapply get_next_run; by lookup_heap|]. simpl.
  eapply bind_run; [eapply free_run; [done|by lookup_heap]|]. simpl.
  erewrite set_next_run by (by lookup_heap). simpl.
  f_equal. f_equal. unfold heap_remove.
  rewrite length_app. simpl. rewrite Nat.add_1_r, Hti. simpl. rewrite Hpi.
  rewrite drop_ge by (rewrite length_app; simpl; lia). simpl.
  heap_eq.
Qed.

Lemma free_at_index_run m lst sz ns index :
  is_list m lst sz ns ->
  free_at_index lst index m =
  Done tt (with_heap (heap_remove (heap m) lst sz ns (N.to_nat index)) m).
Proof.
  intros Hil. pose proof Hil as [Hnn Hl Hc Hnd Hg]. unfold free_at_index.
  eapply bind_run; [by eapply get_head_run|]. simpl.
  destruct ns as [|n0 ns0] eqn:Hns.
  { unfold heap_remove. simpl. by destruct m. }
  rewrite <- Hns in *.
  assert (first ns NULL <> NULL) as Hfn.
  { rewrite Hns in *. simpl. eapply good_head_nonnull; done. }
  rewrite (eqb_NULL_false _ Hfn).
  destruct (N.eq_dec index 0) as [->|Hi0].
  { simpl. by eapply free_at_front_run. }
  rewrite (proj2 (N.eqb_neq index 0) Hi0).
  eapply bind_run; [by eapply get_head_run|]. simpl.
  destruct (N.to_nat index) as [|k] eqn:Hk; [lia|].
  replace (N.to_nat (index - 1)) with k by lia.
  eapply bind_run.
  { rewrite Hns in *. eapply (walk_free_run sz); done. }
  cbn beta. rewrite <- Hns.
  destruct (Nat.ltb_spec k (length ns)) as [Hlt|Hge].
  2:{ unfold heap_remove. rewrite (lookup_ge_None_2 ns (S k)) by lia. by destruct m. }
  destruct (lookup_lt_is_Some_2 ns k) as [p Hp]; [lia|].
  rewrite (drop_S _ _ _ Hp). simpl.
  destruct (lseg_lookup _ _ _ _ _ Hc Hp) as [Hpl _].
  eapply bind_run; [by eapply get_next_run|]. simpl.
  destruct (ns !! S k) as [t|] eqn:Ht.
  2:{ apply lookup_ge_None in Ht. rewrite drop_ge by lia. simpl.
      unfold heap_remove. rewrite (lookup_ge_None_2 ns (S k)) by lia. by destruct m. }
  rewrite (drop_S _ _ _ Ht). simpl.
  pose proof (good_lookup _ _ _ _ Hg Ht) as (Htn & Htd & _).
  pose proof (footprint_link_ne _ _ _ Hnd Ht) as Htd'.
  destruct (lseg_lookup _ _ _ _ _ Hc Ht) as [Htl Hdl].
  destruct (footprint_lookup_ne _ k (S k) p t Hnd Hp Ht)
    as (Hpt1 & Hpt2 & Hpt3 & Hpt4); [lia|].
  rewrite (eqb_NULL_false _ Htn).
  rewrite (drop_S _ _ _ Ht) in Hpl. simpl in Hpl.
  eapply bind_run; [by eapply get_next_run|]. simpl.
  eapply bind_run; [by eapply get_next_run|]. simpl.
  eapply bind_run; [by eapply set_next_run|]. simpl.
  eapply bind_run; [eapply get_data_run; by lookup_heap|]. simpl.
  eapply bind_run; [eapply free_run; [done|by lookup_heap]|]. simpl.
  erewrite free_run; [|done|by lookup_heap]. simpl.
  f_equal. f_equal. unfold heap_remove. rewrite Ht. simpl. by rewrite Hp.
Qed.

(** ** The chain after an insertion and after a removal *)

Lemma is_list_heap m m' lst sz ns :
  heap m' = heap m -> is_list m lst sz ns -> is_list m' lst sz ns.
Proof. intros E [Hnn Hl Hc Hnd Hg]. split; rewrite ?E; done. Qed.

Lemma NoDup_footprint_app xs ys :
  NoDup (footprint (xs ++ ys)) ->
  NoDup (footprint xs) /\ NoDup (footprint ys) /\
  (forall x, x ∈ footprint xs -> x ∉ footprint ys).
Proof.
  rewrite footprint_app. intros H. apply NoDup_app in H as (H1 & H2 & H3). done.
Qed.

Lemma is_list_insert_front h o tr lst sz ns new :
  is_list {| heap := h; oracle := o; trace := tr |} lst sz ns ->
  h !! node_at new = None -> h !! data_at new = None ->
  node_at new <> data_at new -> good_link sz new ->
  is_list {| heap := heap_insert h lst sz ns 0 new; oracle := o; trace := tr |}
    lst sz (new :: ns).
Proof.
  intros [Hnn Hl Hc Hnd Hg] Hfa Hfd Had Hgn. simpl in *.
  assert (node_at new ∉ footprint ns) as Hna by (by eapply lseg_fresh).
  assert (data_at new ∉ footprint ns) as Hda by (by eapply lseg_fresh).
  assert (lst ∉ footprint ns) as Hlf by (by eapply lseg_not_list).
  assert (lst <> node_at new) as Hla by congruence.
  assert (lst <> data_at new) as Hld by congruence.
  unfold heap_insert. rewrite drop_0. split; simpl.
  - done.
  - by rewrite lookup_insert_eq.
  - split; [by lookup_heap|]. split; [by lookup_heap|].
    by apply lseg_insert, lseg_insert, lseg_insert.
  - apply NoDup_cons. split; [set_solver|]. apply NoDup_cons. split; [done|done].
  - by apply Forall_cons.
Qed.

Lemma is_list_insert_after h o tr lst sz xs p ys new :
  is_list {| heap := h; oracle := o; trace := tr |} lst sz ((xs ++ [p]) ++ ys) ->
  h !! node_at new = None -> h !! data_at new = None ->
  node_at new <> data_at new -> good_link sz new ->
  is_list {| heap :=
               <[node_at p := ObjNode {| data := data_at p; next := node_at new |}]>
                 (<[node_at new := ObjNode {| data := data_at new; next := first ys NULL |}]>
                    (<[data_at new := ObjBytes (value new)]> h));
             oracle := o; trace := tr |}
    lst sz ((xs ++ [p]) ++ new :: ys).
Proof.
  intros [Hnn Hl Hc Hnd Hg] Hfa Hfd Had Hgn. simpl in *.
  assert (node_at new ∉ footprint ((xs ++ [p]) ++ ys)) as Hna by (by eapply lseg_fresh).
  assert (data_at new ∉ footprint ((xs ++ [p]) ++ ys)) as Hda by (by eapply lseg_fresh).
  assert (lst ∉ footprint ((xs ++ [p]) ++ ys)) as Hlf by (by eapply lseg_not_list).
  assert (lst <> node_at new) as Hla by congruence.
  assert (lst <> data_at new) as Hld by congruence.
  destruct (NoDup_footprint_app _ _ Hnd) as (Hnd1 & Hnd2 & Hdisj).
  rewrite footprint_app in Hna, Hda, Hlf.
  apply not_elem_of_app in Hna as [Hna1 Hna2].
  apply not_elem_of_app in Hda as [Hda1 Hda2].
  apply not_elem_of_app in Hlf as [Hlf1 Hlf2].
  assert (node_at p ∈ footprint (xs ++ [p])) as Hpin.
  { rewrite footprint_app. simpl. set_solver. }
  assert (node_at p <> node_at new) as Hpa by (intros E; rewrite E in Hpin; done).
  assert (node_at p <> data_at new) as Hpd by (intros E; rewrite E in Hpin; done).
  assert (node_at p <> lst) as Hpl by (intros E; rewrite E in Hpin; done).
  apply lseg_app in Hc as [Hc1 Hc2].
  split; simpl.
  - done.
  - rewrite !lookup_insert_ne by done.
    rewrite Hl. do 3 f_equal. rewrite <- !app_assoc. by destruct xs.
  - apply lseg_app. split.
    + simpl. eapply lseg_relink; [done|]. apply lseg_insert, lseg_insert; [done|done|]. exact Hc1.
    + simpl. split; [by lookup_heap|]. split; [by lookup_heap|].
      apply lseg_insert; [by apply Hdisj|]. by apply lseg_insert, lseg_insert.
  - rewrite footprint_app. simpl. apply NoDup_app. split; [done|]. split.
    + intros x Hx Hin. apply elem_of_cons in Hin as [->|Hin]; [done|].
      apply elem_of_cons in Hin as [->|Hin]; [done|]. by apply (Hdisj x).
    + apply NoDup_cons. split; [set_solver|]. by apply NoDup_cons.
  - apply Forall_app in Hg as [Hg1 Hg2]. apply Forall_app. split; [done|].
    by apply Forall_cons.
Qed.

Lemma is_list_insert m o tr lst sz ns i new :
  is_list m lst sz ns -> fresh_link m new -> good_link sz new ->
  (i <= length ns)%nat ->
  is_list {| heap := heap_insert (heap m) lst sz ns i new; oracle := o; trace := tr |}
    lst sz (take i ns ++ new :: drop i ns).
Proof.
  intros Hil (Ha & Hd & Had & Hab & Hfa & Hfd) Hgn Hi.
  assert (is_list {| heap := heap m; oracle := o; trace := tr |} lst sz ns) as Hil'
    by (eapply is_list_heap; [|exact Hil]; done).
  destruct i as [|j].
  { rewrite take_0, drop_0. simpl. by apply is_list_insert_front. }
  destruct (lookup_lt_is_Some_2 ns j) as [p Hp]; [lia|].
  unfold heap_insert. rewrite Hp.
  rewrite (take_S_r _ _ _ Hp).
  rewrite <- (take_drop (S j) ns) in Hil' at 1. rewrite (take_S_r _ _ _ Hp) in Hil'.
  by apply is_list_insert_after.
Qed.

Lemma is_list_remove_front h o tr lst sz t ys :
  is_list {| heap := h; oracle := o; trace := tr |} lst sz (t :: ys) ->
  is_list {| heap := delete (node_at t) (delete (data_at t)
                       (<[lst := ObjList {| head := first ys NULL; data_size := sz |}]> h));
             oracle := o; trace := tr |} lst sz ys.
Proof.
  intros [Hnn Hl Hc Hnd Hg]. simpl in *.
  assert (lst ∉ footprint (t :: ys)) as Hlf by (by eapply lseg_not_list).
  simpl in Hlf. apply not_elem_of_cons in Hlf as [Hlt Hlf].
  apply not_elem_of_cons in Hlf as [Hld Hlf].
  apply NoDup_cons in Hnd as [Hn1 Hnd]. apply NoDup_cons in Hnd as [Hn2 Hnd].
  apply not_elem_of_cons in Hn1 as [_ Hn1].
  destruct Hc as (_ & _ & Hc). apply Forall_cons in Hg as [_ Hg].
  split; simpl; [done| |by apply lseg_delete, lseg_delete, lseg_insert|done|done].
  rewrite !lookup_delete_ne by congruence. by rewrite lookup_insert_eq.
Qed.

Lemma is_list_remove_after h o tr lst sz xs p t ys :
  is_list {| heap := h; oracle := o; trace := tr |} lst sz ((xs ++ [p]) ++ t :: ys) ->
  is_list {| heap := delete (node_at t) (delete (data_at t)
                       (<[node_at p := ObjNode {| data := data_at p; next := first ys NULL |}]> h));
             oracle := o; trace := tr |} lst sz ((xs ++ [p]) ++ ys).
Proof.
  intros [Hnn Hl Hc Hnd Hg]. simpl in *.
  assert (lst ∉ footprint ((xs ++ [p]) ++ t :: ys)) as Hlf by (by eapply lseg_not_list).
  destruct (NoDup_footprint_app _ _ Hnd) as (Hnd1 & Hnd2 & Hdisj).
  rewrite footprint_app in Hlf. simpl in *.
  apply not_elem_of_app in Hlf as [Hlf1 Hlf2].
  apply not_elem_of_cons in Hlf2 as [Hlt Hlf2].
  apply not_elem_of_cons in Hlf2 as [Hld Hlf2].
  apply NoDup_cons in Hnd2 as [Hn1 Hnd2]. apply NoDup_cons in Hnd2 as [Hn2 Hnd2].
  apply not_elem_of_cons in Hn1 as [_ Hn1].
  assert (node_at t ∉ footprint (xs ++ [p])) as Ht1.
  { intros Hin. apply (Hdisj _ Hin). set_solver. }
  assert (data_at t ∉ footprint (xs ++ [p])) as Ht2.
  { intros Hin. apply (Hdisj _ Hin). set_solver. }
  assert (node_at p ∈ footprint (xs ++ [p])) as Hpin.
  { rewrite footprint_app. simpl. set_solver. }
  assert (node_at p ∉ footprint ys) as Hpy.
  { intros Hin. apply (Hdisj _ Hpin). set_solver. }
  assert (node_at p <> lst) as Hpl by (intros E; rewrite E in Hpin; done).
  assert (node_at p <> node_at t) as Hpt by (intros E; rewrite E in Hpin; done).
  assert (node_at p <> data_at t) as Hpd by (intros E; rewrite E in Hpin; done).
  apply lseg_app in Hc as [Hc1 Hc2]. simpl in Hc2. destruct Hc2 as (_ & _ & Hc2).
  apply Forall_app in Hg as [Hg1 Hg2]. apply Forall_cons in Hg2 as [_ Hg2].
  split; simpl.
  - done.
  - rewrite !lookup_delete_ne by congruence. rewrite lookup_insert_ne by done.
    rewrite Hl. do 3 f_equal. rewrite <- !app_assoc. by destruct xs.
  - apply lseg_app. split.
    + apply lseg_delete, lseg_delete; [done|done|]. eapply lseg_relink; [done|]. exact Hc1.
    + by apply lseg_delete, lseg_delete, lseg_insert.
  - rewrite footprint_app. apply NoDup_app. split; [done|]. split; [|done].
    intros x Hx Hin. apply (Hdisj x Hx). set_solver.
  - by apply Forall_app.
Qed.

Lemma is_list_remove m lst sz ns i :
  is_list m lst sz ns ->
  is_list (with_heap (heap_remove (heap m) lst sz ns i) m) lst sz (delete i ns).
Proof.
  intros Hil. unfold heap_remove.
  destruct (ns !! i) as [t|] eqn:Ht.
  2:{ apply lookup_ge_None in Ht.
      rewrite delete_take_drop, take_ge, drop_ge by lia. rewrite app_nil_r.
      eapply is_list_heap; [|exact Hil]. done. }
  assert (is_list {| heap := heap m; oracle := oracle m; trace := trace m |} lst sz ns) as Hil'
    by (eapply is_list_heap; [|exact Hil]; done).
  rewrite delete_take_drop. rewrite <- (take_drop_middle _ _ _ Ht) in Hil' at 1.
  destruct i as [|j]; simpl.
  { rewrite take_0 in *. simpl in *. by apply is_list_remove_front. }
  destruct (lookup_lt_is_Some_2 ns j) as [p Hp]; [apply lookup_lt_Some in Ht; lia|].
  rewrite Hp. rewrite (take_S_r _ _ _ Hp) in *. by apply is_list_remove_after.
Qed.

(** ** Teardown *)

Lemma free_nodes_run sz ns : forall fuel m,
  lseg (heap m) ns NULL -> NoDup (footprint ns) -> Forall (good_link sz) ns ->
  (length ns < fuel)%nat ->
  exists m',
    free_nodes fuel (first ns NULL) m = Done tt m' /\
    oracle m' = oracle m /\ trace m' = trace m /\
    forall x, heap m' !! x = if decide (x ∈ footprint ns) then None else heap m !! x.
Proof.
  induction ns as [|n ns IH]; intros fuel m Hc Hnd Hg Hf;
    (destruct fuel as [|fuel]; [simpl in Hf; lia|]); simpl in *.
  { by exists m. }
  destruct Hc as (Hn & Hd & Hc).
  apply NoDup_cons in Hnd as [Hn1 Hnd]. apply NoDup_cons in Hnd as [Hn2 Hnd].
  apply not_elem_of_cons in Hn1 as [Hnd' Hn1].
  pose proof (good_lookup sz (n :: ns) 0 n Hg eq_refl) as (Ha & Hd0 & _).
  apply Forall_cons in Hg as [_ Hg].
  rewrite (eqb_NULL_false _ Ha).
  destruct (IH fuel (with_heap (delete (node_at n) (delete (data_at n) (heap m))) m))
    as (m' & Hrun & Ho & Ht & Hh); [by apply lseg_delete, lseg_delete|done|done|lia|].
  exists m'. split.
  { eapply bind_run; [by eapply get_next_run|]. simpl.
    eapply bind_run; [by eapply get_data_run|]. simpl.
    eapply bind_run; [by eapply free_run|]. simpl.
    eapply bind_run; [eapply free_run; [done|simpl; by rewrite lookup_delete_ne]|].
    exact Hrun. }
  split; [done|]. split; [done|].
  intros x. rewrite Hh. simpl. rewrite !lookup_delete.
  destruct (decide (x ∈ footprint ns)) as [H1|H1];
    destruct (decide (x ∈ node_at n :: data_at n :: footprint ns)) as [H2|H2];
    rewrite ?elem_of_cons, ?not_elem_of_cons in H2;
    repeat case_decide; try done; intuition congruence.
Qed.

(** [free_sllist] on a well-formed list releases the descriptor and every
    node and payload of the chain, each once, and nothing else. *)
Lemma free_sllist_run m lst sz ns :
  is_list m lst sz ns ->
  exists m',
    free_sllist lst m = Done tt m' /\
    forall x, heap m' !! x =
              if decide (x ∈ lst :: footprint ns) then None else heap m !! x.
Proof.
  intros [Hnn Hl Hc Hnd Hg]. unfold free_sllist.
  assert (lst ∉ footprint ns) as Hlf by (by eapply lseg_not_list).
  destruct (free_nodes_run sz ns (S (size (heap m))) m Hc Hnd Hg)
    as (m' & Hrun & _ & _ & Hh).
  { apply Nat.lt_succ_r. by eapply lseg_size. }
  assert (heap m' !! lst = heap m !! lst) as Hl' by (rewrite Hh; by rewrite decide_False).
  eexists. split.
  { eapply bind_run; [by eapply get_head_run|]. simpl.
    eapply bind_run; [reflexivity|]. cbn beta.
    eapply bind_run; [exact Hrun|].
    eapply free_run; [done|by rewrite Hl']. }
  intros x. simpl. rewrite lookup_delete, Hh.
  destruct (decide (x ∈ footprint ns)) as [H1|H1];
    destruct (decide (x ∈ lst :: footprint ns)) as [H2|H2];
    rewrite ?elem_of_cons, ?not_elem_of_cons in H2;
    repeat case_decide; try done; intuition congruence.
Qed.

(** ** Length, traversal, creation *)

Lemma sll_len_run m lst sz ns :
  is_list m lst sz ns -> sll_len lst m = Done (N.of_nat (length ns)) m.
Proof.
  intros Hil. pose proof (is_list_length _ _ _ _ Hil) as Hb.
  destruct Hil as [Hnn Hl Hc Hnd Hg]. unfold sll_len.
  eapply bind_run; [by eapply get_head_run|]. simpl.
  eapply bind_run; [reflexivity|]. cbn beta.
  erewrite (count_nodes_run sz ns); [f_equal| done | done | | lia].
  apply Nat.lt_succ_r. by eapply lseg_size.
Qed.

Lemma print_sllist_run m lst sz ns :
  is_list m lst sz ns ->
  print_sllist lst m =
  Done tt {| heap := heap m; oracle := oracle m;
             trace := trace m ++ visits ns ++ [Printf NULL_line] |}.
Proof.
  intros [Hnn Hl Hc Hnd Hg]. unfold print_sllist.
  eapply bind_run; [by eapply get_head_run|]. simpl.
  eapply bind_run; [reflexivity|]. cbn beta.
  eapply bind_run.
  { eapply (print_nodes_run sz ns); [done|done|].
    apply Nat.lt_succ_r. by eapply lseg_size. }
  unfold emit. simpl. by rewrite <- app_assoc.
Qed.

Lemma sllist_create_cases size m :
  (exists rest, sllist_create size m =
                Done NULL {| heap := heap m; oracle := rest; trace := trace m |}) \/
  (exists lst rest,
     oracle m = lst :: rest /\ usable lst (heap m) = true /\
     sllist_create size m =
     Done lst {| heap := <[lst := ObjList {| head := NULL; data_size := size |}]> (heap m);
                 oracle := rest; trace := trace m |}).
Proof.
  unfold sllist_create.
  destruct (malloc_cases fresh_list m) as [(rest & Hm)|(a & rest & Ho & Hu & Hm)].
  { left. exists rest. eapply bind_run; [exact Hm|]. done. }
  right. exists a, rest. split; [done|]. split; [done|].
  apply usable_spec in Hu as (Ha & _).
  eapply bind_run; [exact Hm|]. simpl. rewrite (eqb_NULL_false _ Ha).
  eapply bind_run; [eapply set_head_run; simpl; by rewrite lookup_insert_eq|]. simpl.
  eapply bind_run; [eapply set_data_size_run; simpl; by rewrite lookup_insert_eq|]. simpl.
  unfold ret. f_equal. f_equal. by rewrite !insert_insert_eq.
Qed.

Lemma sllist_create_is_list size m lst m' :
  sllist_create size m = Done lst m' -> lst <> NULL ->
  is_list m' lst size [] /\ heap m !! lst = None.
Proof.
  intros Hrun Hnn.
  destruct (sllist_create_cases size m) as [(rest & H)|(a & rest & Ho & Hu & H)];
    rewrite H in Hrun; simplify_eq.
  apply usable_spec in Hu as (_ & _ & Hf). split; [|done].
  split; simpl; [done|by rewrite lookup_insert_eq|done|constructor|constructor].
Qed.

(** ** The allocations are decided by the memory *)

Lemma allocates_not_failure sz m a d : allocates sz m a d -> alloc_failure sz m -> False.
Proof.
  intros (m1 & m2 & H1 & Ha & H2 & Hd) [m1' H1'|a' m1' m2' H1' Ha' H2'];
    rewrite H1 in H1'; simplify_eq.
  rewrite H2 in H2'. simplify_eq.
Qed.

Lemma allocates_unique sz m a d a' d' :
  allocates sz m a d -> allocates sz m a' d' -> a = a' /\ d = d'.
Proof.
  intros (m1 & m2 & H1 & Ha & H2 & Hd) (m1' & m2' & H1' & Ha' & H2' & Hd').
  rewrite H1 in H1'. simplify_eq. rewrite H2 in H2'. by simplify_eq.
Qed.

Lemma new_node_for_ok m lst sz ns a d src :
  is_list m lst sz ns -> allocates sz m a d -> sz <= N.of_nat (length src) ->
  exists rest,
    oracle m = a :: d :: rest /\ fresh_link m (new_link sz a d src) /\
    new_node_for lst (Some src) m = Done (Some a) (prepared m (new_link sz a d src) rest).
Proof.
  intros [Hnn Hl Hc Hnd Hg] Hal Hsrc.
  destruct (new_node_for_cases lst src _ m Hl Hnn)
    as [(rest & Hf & _)|(a' & d' & rest & Hal' & Ho & Hfr & [[_ Hr]|[Hlt _]])];
    simpl in *.
  - destruct (allocates_not_failure _ _ _ _ Hal Hf).
  - destruct (allocates_unique _ _ _ _ _ _ Hal Hal') as [-> ->]. eauto.
  - lia.
Qed.

Lemma new_node_for_fail m lst sz ns data :
  is_list m lst sz ns -> alloc_failure sz m ->
  exists rest,
    new_node_for lst data m =
    Done None {| heap := heap m; oracle := rest; trace := trace m |}.
Proof.
  intros [Hnn Hl Hc Hnd Hg] Hf. destruct data as [src|].
  2:{ exists (oracle m). unfold new_node_for. rewrite (eqb_NULL_false _ Hnn).
      unfold ret. by destruct m. }
  destruct (new_node_for_cases lst src _ m Hl Hnn)
    as [(rest & _ & Hr)|(a' & d' & rest & Hal' & _)]; simpl in *.
  - eauto.
  - destruct (allocates_not_failure _ _ _ _ Hal' Hf).
Qed.

Lemma good_new_link sz a d src :
  a <> NULL -> d <> NULL -> a <= SIZE_MAX -> sz <= N.of_nat (length src) ->
  good_link sz (new_link sz a d src).
Proof.
  intros Ha Hd Hb Hs. repeat split; simpl; try done.
  rewrite length_take. lia.
Qed.

Lemma fresh_good m sz a d src :
  fresh_link m (new_link sz a d src) -> sz <= N.of_nat (length src) ->
  good_link sz (new_link sz a d src).
Proof. intros (Ha & Hd & _ & Hb & _) Hs. by apply good_new_link. Qed.

(** ** The operations on a well-formed list *)

Lemma insert_op_ok m lst sz ns o a d src :
  is_insertion o = true -> op_data o = Some src ->
  is_list m lst sz ns -> allocates sz m a d -> sz <= N.of_nat (length src) ->
  (insert_pos o ns <= length ns)%nat ->
  exists rest,
    oracle m = a :: d :: rest /\ fresh_link m (new_link sz a d src) /\
    run_op lst o m =
    Done tt {| heap := heap_insert (heap m) lst sz ns (insert_pos o ns) (new_link sz a d src);
               oracle := rest; trace := trace m |}.
Proof.
  intros Hins Hdata Hil Hal Hsrc Hpos.
  destruct (new_node_for_ok _ _ _ _ _ _ _ Hil Hal Hsrc) as (rest & Ho & Hfr & Hnew).
  exists rest. split; [done|]. split; [done|].
  destruct o as [data|data|data index| | |]; simplify_eq/=.
  - rewrite insert_front_parts. eapply bind_run; [exact Hnew|]. simpl.
    by apply (link_front_run m lst sz ns (new_link sz a d src)).
  - rewrite insert_end_parts. eapply bind_run; [exact Hnew|]. simpl.
    by apply (link_end_run m lst sz ns (new_link sz a d src)).
  - rewrite insert_at_index_parts. eapply bind_run; [exact Hnew|]. simpl.
    by apply (link_at_index_run m lst sz ns (new_link sz a d src)).
Qed.

Lemma insert_at_index_oob m lst sz ns index a d src :
  is_list m lst sz ns -> allocates sz m a d -> sz <= N.of_nat (length src) ->
  (length ns < N.to_nat index)%nat ->
  exists rest,
    oracle m = a :: d :: rest /\
    insert_at_index lst (Some src) index m =
    Done tt {| heap := heap m; oracle := rest; trace := trace m |}.
Proof.
  intros Hil Hal Hsrc Hpos.
  destruct (new_node_for_ok _ _ _ _ _ _ _ Hil Hal Hsrc) as (rest & Ho & Hfr & Hnew).
  exists rest. split; [done|].
  rewrite insert_at_index_parts. eapply bind_run; [exact Hnew|]. simpl.
  by apply (link_at_index_oob m lst sz ns (new_link sz a d src)).
Qed.

Lemma insert_op_parts lst o :
  is_insertion o = true ->
  forall m,
    run_op lst o m =
    (let* r := new_node_for lst (op_data o) in
     match r with
     | None => ret tt
     | Some n =>
         match o with
         | Insert_end _ => link_end lst n
         | Insert_at_index _ i => link_at_index lst n i
         | _ => link_front lst n
         end
     end) m.
Proof.
  intros Hins m. destruct o; simplify_eq/=.
  - apply insert_front_parts.
  - apply insert_end_parts.
  - apply insert_at_index_parts.
Qed.

Lemma insert_op_fail m lst sz ns o :
  is_insertion o = true -> is_list m lst sz ns -> alloc_failure sz m ->
  exists rest,
    run_op lst o m = Done tt {| heap := heap m; oracle := rest; trace := trace m |}.
Proof.
  intros Hins Hil Hf.
  destruct (new_node_for_fail _ _ _ _ (op_data o) Hil Hf) as (rest & Hr).
  exists rest. rewrite (insert_op_parts lst o Hins).
  eapply bind_run; [exact Hr|]. done.
Qed.

Lemma remove_op_run m lst sz ns o :
  is_insertion o = false -> is_list m lst sz ns ->
  run_op lst o m =
  Done tt (with_heap (heap_remove (heap m) lst sz ns (remove_pos o ns)) m).
Proof.
  intros Hins Hil. destruct o; simplify_eq/=.
  - by apply free_at_front_run.
  - by apply free_at_end_run.
  - by apply free_at_index_run.
Qed.

Lemma heap_insert_size m lst sz ns i new :
  is_list m lst sz ns -> fresh_link m new -> (i <= length ns)%nat ->
  size (heap_insert (heap m) lst sz ns i new) = S (S (size (heap m))).
Proof.
  intros Hil Hf Hi.
  destruct (fresh_not_in _ _ _ _ _ Hil Hf) as (Hna & Hnd' & Hla & Hld & Hlf).
  destruct Hil as [Hnn Hl Hc Hnd Hg]. destruct Hf as (Ha & Hd & Had & Hab & Hfa & Hfd).
  assert (size (<[node_at new := ObjNode {| data := data_at new;
                                           next := first (drop i ns) NULL |}]>
                  (<[data_at new := ObjBytes (value new)]> (heap m))) =
          S (S (size (heap m)))) as Hsz.
  { rewrite map_size_insert_None by (by rewrite lookup_insert_ne).
    by rewrite map_size_insert_None. }
  unfold heap_insert. destruct i as [|j].
  - rewrite map_size_insert_Some; [done|]. rewrite !lookup_insert_ne by done. eauto.
  - destruct (lookup_lt_is_Some_2 ns j) as [p Hp]; [lia|]. rewrite Hp.
    destruct (footprint_lookup _ _ _ Hp) as [Hpn _].
    destruct (lseg_lookup _ _ _ _ _ Hc Hp) as [Hpl _].
    rewrite map_size_insert_Some; [done|].
    rewrite !lookup_insert_ne by (intros E; rewrite <- E in Hpn; done). eauto.
Qed.

Lemma heap_remove_size m lst sz ns i t :
  is_list m lst sz ns -> ns !! i = Some t ->
  S (S (size (heap_remove (heap m) lst sz ns i))) = size (heap m).
Proof.
  intros Hil Ht. pose proof Hil as [Hnn Hl Hc Hnd Hg].
  assert (lst ∉ footprint ns) as Hlf by (by eapply lseg_not_list).
  destruct (footprint_lookup _ _ _ Ht) as [Htn Htd].
  destruct (lseg_lookup _ _ _ _ _ Hc Ht) as [Htl Hdl].
  pose proof (footprint_link_ne _ _ _ Hnd Ht) as Htd'.
  assert (forall h1 : gmap N object,
            size h1 = size (heap m) ->
            h1 !! node_at t = heap m !! node_at t ->
            h1 !! data_at t = heap m !! data_at t ->
            S (S (size (delete (node_at t) (delete (data_at t) h1)))) = size (heap m)) as Hdel.
  { intros h1 Hs H1 H2.
    assert (size (heap m) <> 0)%nat as Hpos.
    { intros E. apply map_size_empty_inv in E. rewrite E in Htl. done. }
    assert (size (delete (data_at t) h1) = pred (size h1)) as E1.
    { apply map_size_delete_Some. rewrite H2, Hdl. eauto. }
    assert (size (delete (node_at t) (delete (data_at t) h1)) =
            pred (size (delete (data_at t) h1))) as E2.
    { apply map_size_delete_Some. rewrite lookup_delete_ne by done. rewrite H1, Htl. eauto. }
    assert (size (delete (data_at t) h1) <> 0)%nat as Hpos'.
    { intros E. apply map_size_empty_inv in E.
      assert (delete (data_at t) h1 !! node_at t = None) as E' by (by rewrite E).
      rewrite lookup_delete_ne in E' by done. rewrite H1, Htl in E'. done. }
    rewrite E2, E1 in *. lia. }
  unfold heap_remove. rewrite Ht. destruct i as [|j].
  - apply Hdel.
    + apply map_size_insert_Some. eauto.
    + rewrite lookup_insert_ne; [done|]. intros E. rewrite E in Hlf. done.
    + rewrite lookup_insert_ne; [done|]. intros E. rewrite E in Hlf. done.
  - destruct (lookup_lt_is_Some_2 ns j) as [p Hp]; [apply lookup_lt_Some in Ht; lia|].
    rewrite Hp.
    destruct (lseg_lookup _ _ _ _ _ Hc Hp) as [Hpl _].
    destruct (footprint_lookup_ne _ j (S j) p t Hnd Hp Ht) as (H1 & H2 & _); [lia|].
    apply Hdel.
    + apply map_size_insert_Some. eauto.
    + by rewrite lookup_insert_ne.
    + by rewrite lookup_insert_ne.
Qed.

Lemma insert_op_effect m lst sz ns o :
  is_insertion o = true -> is_list m lst sz ns -> op_readable sz o ->
  exists m' ns',
    run_op lst o m = Done tt m' /\ is_list m' lst sz ns' /\
    ((heap m' = heap m /\ ns' = ns) \/
     (size (heap m') = S (S (size (heap m))) /\ length ns' = S (length ns))).
Proof.
  intros Hins Hil Hrd. pose proof Hil as [Hnn Hl Hc Hnd Hg].
  assert (op_readable sz o = readable sz (op_data o)) as E by (by destruct o).
  rewrite E in Hrd. clear E.
  destruct (op_data o) as [src|] eqn:Hdata.
  2:{ exists m, ns. split; [|by eauto].
      rewrite (insert_op_parts lst o Hins), Hdata.
      unfold new_node_for. rewrite (eqb_NULL_false _ Hnn). done. }
  simpl in Hrd.
  destruct (new_node_for_cases lst src _ m Hl Hnn)
    as [(rest & Hf & Hr)|(a & d & rest & Hal & Ho & Hfr & [[_ Hr]|[Hlt _]])];
    simpl in *; [| |lia].
  { eexists _, ns. split.
    { rewrite (insert_op_parts lst o Hins), Hdata. eapply bind_run; [exact Hr|done]. }
    split; [by eapply is_list_heap; [|exact Hil]|]. by left. }
  destruct (decide (insert_pos o ns <= length ns)%nat) as [Hpos|Hpos].
  - destruct (insert_op_ok _ _ _ _ _ _ _ _ Hins Hdata Hil Hal Hrd Hpos)
      as (rest' & Ho' & _ & Hrun).
    eexists _, _. split; [exact Hrun|]. split.
    + apply is_list_insert; [done|done|by eapply fresh_good|done].
    + right. simpl. split; [by eapply heap_insert_size|].
      rewrite length_app. simpl. rewrite length_take, length_drop. lia.
  - destruct o as [data|data|data index| | |]; simplify_eq/=; try lia.
    destruct (insert_at_index_oob _ _ _ _ index _ _ _ Hil Hal Hrd) as (rest' & Ho' & Hrun);
      [lia|].
    eexists _, ns. split; [exact Hrun|].
    split; [by eapply is_list_heap; [|exact Hil]|]. by left.
Qed.

Lemma remove_op_effect m lst sz ns o :
  is_insertion o = false -> is_list m lst sz ns ->
  exists m' ns',
    run_op lst o m = Done tt m' /\ is_list m' lst sz ns' /\
    ((m' = m /\ ns' = ns) \/
     (S (S (size (heap m'))) = size (heap m) /\ S (length ns') = length ns)).
Proof.
  intros Hins Hil. rewrite (remove_op_run _ _ _ _ _ Hins Hil).
  eexists _, _. split; [done|]. split; [by apply is_list_remove|].
  destruct (ns !! remove_pos o ns) as [t|] eqn:Ht.
  - right. simpl. split; [by eapply heap_remove_size|].
    rewrite length_delete by eauto. apply lookup_lt_Some in Ht. lia.
  - left. unfold heap_remove. rewrite Ht. split; [by destruct m|].
    apply lookup_ge_None in Ht.
    rewrite delete_take_drop, take_ge, drop_ge by lia. apply app_nil_r.
Qed.

Lemma new_node_for_None lst m : new_node_for lst None m = Done None m.
Proof. unfold new_node_for. by destruct (lst =? NULL). Qed.

Lemma new_node_for_NULL data m : new_node_for NULL data m = Done None m.
Proof. reflexivity. Qed.

Lemma heap_remove_insert m lst sz ns i new :
  is_list m lst sz ns -> fresh_link m new -> (i <= length ns)%nat ->
  heap_remove (heap_insert (heap m) lst sz ns i new) lst sz
    (take i ns ++ new :: drop i ns) i = heap m.
Proof.
  intros Hil Hf Hi.
  destruct (fresh_not_in _ _ _ _ _ Hil Hf) as (Hna & Hnd' & Hla & Hld & Hlf).
  destruct Hil as [Hnn Hl Hc Hnd Hg]. destruct Hf as (Ha & Hd & Had & Hab & Hfa & Hfd).
  assert (length (take i ns) = i) as Hlen by (rewrite length_take; lia).
  assert ((take i ns ++ new :: drop i ns) !! i = Some new) as Hnew.
  { by apply list_lookup_middle. }
  assert (drop (S i) (take i ns ++ new :: drop i ns) = drop i ns) as Hdrop.
  { rewrite drop_app_ge by lia. rewrite Hlen.
    replace (S i - i)%nat with 1%nat by lia. done. }
  unfold heap_remove. rewrite Hnew, Hdrop. unfold heap_insert.
  destruct i as [|j].
  - rewrite drop_0. heap_eq.
  - destruct (lookup_lt_is_Some_2 ns j) as [p Hp]; [lia|]. rewrite Hp.
    assert ((take (S j) ns ++ new :: drop (S j) ns) !! j = Some p) as Hp'.
    { rewrite lookup_app_l by lia. by rewrite lookup_take_lt by lia. }
    rewrite Hp'.
    destruct (footprint_lookup _ _ _ Hp) as [Hpn _].
    destruct (lseg_lookup _ _ _ _ _ Hc Hp) as [Hpl _].
    assert (node_at p <> node_at new) by (intros E; rewrite E in Hpn; done).
    assert (node_at p <> data_at new) by (intros E; rewrite E in Hpn; done).
    heap_eq.
Qed.

(** ** Test runs *)

Lemma run_ops_tally lst sz os : forall m ns i0 r0,
  is_list m lst sz ns -> Forall (op_readable sz) os ->
  i0 = r0 + N.of_nat (length ns) ->
  exists ins rem m' ns',
    run_ops lst os i0 r0 m = Done (ins, rem) m' /\
    is_list m' lst sz ns' /\
    ins = rem + N.of_nat (length ns').
Proof.
  induction os as [|o os IH]; intros m ns i0 r0 Hil Hrd Hcount.
  { exists i0, r0, m, ns. done. }
  apply Forall_cons in Hrd as [Hro Hrd]. cbn [run_ops].
  destruct (is_insertion o) eqn:Hins.
  - destruct (insert_op_effect _ _ _ _ _ Hins Hil Hro) as (m' & ns' & Hrun & Hil' & Heff).
    rewrite Hrun. cbn [negb andb].
    destruct Heff as [[Hh ->]|[Hs Hlen]].
    + rewrite Hh, Nat.ltb_irrefl. by apply (IH m' ns).
    + rewrite (proj2 (Nat.ltb_lt _ _)) by lia. apply (IH m' ns'); [done|done|lia].
  - destruct (remove_op_effect _ _ _ _ _ Hins Hil) as (m' & ns' & Hrun & Hil' & Heff).
    rewrite Hrun. cbn [negb andb].
    destruct Heff as [[-> ->]|[Hs Hlen]].
    + rewrite Nat.ltb_irrefl. by apply (IH m ns).
    + rewrite (proj2 (Nat.ltb_lt _ _)) by lia. apply (IH m' ns'); [done|done|lia].
Qed.

(** ** The allocator's supply *)

Lemma supply_allocates sz m k :
  supply m (S (S k)) ->
  exists a d rest, oracle m = a :: d :: rest /\ allocates sz m a d.
Proof.
  intros (Hlen & Hnd & Hus).
  destruct (oracle m) as [|a [|d rest]] eqn:Ho; simpl in Hlen; try lia.
  exists a, d, rest. split; [done|]. simpl in *.
  apply NoDup_cons in Hnd as [Had _].
  apply Forall_cons in Hus as [Hua Hus]. apply Forall_cons in Hus as [Hud _].
  apply usable_spec in Hua as Hua'. destruct Hua' as (Ha & Hab & Hfa).
  apply usable_spec in Hud as Hud'. destruct Hud' as (Hd & Hdb & Hfd).
  assert (a <> d) as Hne by set_solver.
  assert (usable d (<[a := fresh_node]> (heap m)) = true) as Hud2.
  { apply usable_spec. by rewrite lookup_insert_ne. }
  exists {| heap := <[a := fresh_node]> (heap m); oracle := d :: rest; trace := trace m |},
         {| heap := <[d := fresh_bytes sz]> (<[a := fresh_node]> (heap m));
            oracle := rest; trace := trace m |}.
  split; [unfold malloc; by rewrite Ho, Hua|]. split; [done|].
  split; [unfold malloc; simpl; by rewrite Hud2|done].
Qed.

Lemma heap_insert_fresh m lst sz ns i new x :
  is_list m lst sz ns -> heap m !! x = None ->
  x <> node_at new -> x <> data_at new ->
  heap_insert (heap m) lst sz ns i new !! x = None.
Proof.
  intros [Hnn Hl Hc Hnd Hg] Hx Hxa Hxd.
  assert (lst <> x) by congruence.
  unfold heap_insert. destruct i as [|j].
  - by rewrite !lookup_insert_ne.
  - destruct (ns !! j) as [p|] eqn:Hp; [|by rewrite !lookup_insert_ne].
    destruct (lseg_lookup _ _ _ _ _ Hc Hp) as [Hpl _].
    assert (node_at p <> x) by congruence.
    by rewrite !lookup_insert_ne.
Qed.

Lemma supply_insert m lst sz ns i a d rest src tr k :
  is_list m lst sz ns -> supply m (S (S k)) -> oracle m = a :: d :: rest ->
  supply {| heap := heap_insert (heap m) lst sz ns i (new_link sz a d src);
            oracle := rest; trace := tr |} k.
Proof.
  intros Hil (Hlen & Hnd & Hus) Ho. rewrite Ho in *. simpl in *.
  apply NoDup_cons in Hnd as [Ha Hnd]. apply NoDup_cons in Hnd as [Hd Hnd].
  apply Forall_cons in Hus as [_ Hus]. apply Forall_cons in Hus as [_ Hus].
  unfold supply. simpl. split; [lia|]. split; [done|].
  rewrite Forall_forall in Hus. apply Forall_forall. intros x Hx.
  specialize (Hus x Hx). apply usable_spec in Hus as (Hx0 & Hxb & Hxf).
  apply usable_spec. split; [done|]. split; [done|].
  apply heap_insert_fresh; [done|done| |]; simpl; set_solver.
Qed.

(** An insertion served from the allocator's supply. *)
Lemma insert_step m lst sz ns o src k :
  is_insertion o = true -> op_data o = Some src ->
  is_list m lst sz ns -> N.of_nat (length src) = sz ->
  supply m (S (S k)) -> (insert_pos o ns <= length ns)%nat ->
  exists m' new,
    run_op lst o m = Done tt m' /\ value new = src /\
    is_list m' lst sz (take (insert_pos o ns) ns ++ new :: drop (insert_pos o ns) ns) /\
    supply m' k /\ trace m' = trace m.
Proof.
  intros Hins Hdata Hil Hsrc Hsup Hpos.
  destruct (supply_allocates sz m k Hsup) as (a & d & rest & Ho & Hal).
  assert (sz <= N.of_nat (length src)) as Hle by lia.
  destruct (insert_op_ok _ _ _ _ _ _ _ _ Hins Hdata Hil Hal Hle Hpos)
    as (rest' & Ho' & Hfr & Hrun).
  assert (rest' = rest) as -> by congruence.
  eexists _, (new_link sz a d src). split; [exact Hrun|]. split.
  { simpl. apply take_ge. lia. }
  split; [apply is_list_insert; [done|done|by eapply fresh_good|done]|].
  split; [by eapply supply_insert|done].
Qed.

(** ** Concrete instances *)

Lemma sample_is_list : is_list sample_mem 16 1 sample_chain.
Proof.
  split.
  - discriminate.
  - reflexivity.
  - repeat split.
  - apply NoDup_ListNoDup. repeat constructor; simpl; intuition discriminate.
  - repeat constructor; simpl; discriminate.
Qed.

Lemma starved_is_list : is_list starved_mem 16 1 sample_chain.
Proof. eapply is_list_heap; [|exact sample_is_list]. reflexivity. Qed.

Lemma blank_list_is_list : is_list blank_list_mem 16 1 [].
Proof. split; [discriminate|reflexivity|exact I|constructor|constructor]. Qed.

Lemma sample_allocates : allocates 1 sample_mem 64 80.
Proof.
  eexists _, _. split; [reflexivity|]. split; [discriminate|].
  split; [reflexivity|discriminate].
Qed.

Lemma starved_alloc_failure : alloc_failure 1 starved_mem.
Proof. eapply (payload_alloc_fails 1 starved_mem 64); [reflexivity|discriminate|reflexivity]. Qed.

Lemma blank_list_supply : supply blank_list_mem 6.
Proof.
  split; [simpl; lia|]. split.
  - apply NoDup_ListNoDup. repeat constructor; simpl; intuition discriminate.
  - repeat constructor.
Qed.

(** * The properties of the specification *)

(** C1, as stated, fails: it says that every operation of the API returns
    without any action when the list reference is null.  The
    removal, length, traversal and teardown functions read [list->head]
    without a check; with a null list that access is undefined, they do
    not return with the memory as it was. *)
Lemma C1_null_list_is_dereferenced :
  free_at_front NULL empty_mem = Fault /\
  free_at_front NULL empty_mem <> Done tt empty_mem /\
  free_at_end NULL empty_mem = Fault /\
  free_at_index NULL 0 empty_mem = Fault /\
  sll_len NULL empty_mem = Fault /\
  print_sllist NULL empty_mem = Fault /\
  free_sllist NULL empty_mem = Fault.
Proof. repeat split; try reflexivity. discriminate. Qed.

(** C1, amended: each insert function called with a null list reference,
    or with a null value reference, returns having done nothing: the
    memory (allocations, allocator, output) is the one it was called
    in, and no error is signalled. *)
Theorem C1_insert_ignores_null_arguments :
  forall (m : mem) (lst : ptr) (data : option (list byte)) (index : N),
    insert_front NULL data m = Done tt m /\
    insert_end NULL data m = Done tt m /\
    insert_at_index NULL data index m = Done tt m /\
    insert_front lst None m = Done tt m /\
    insert_end lst None m = Done tt m /\
    insert_at_index lst None index m = Done tt m.
Proof.
  intros m lst data index.
  rewrite !insert_front_parts, !insert_end_parts, !insert_at_index_parts.
  repeat split;
    (eapply bind_run; [first [apply new_node_for_NULL|apply new_node_for_None]|done]).
Qed.

(** C2: on a well-formed list, [insert_at_index] called with the length
    that [sll_len] returns ends in exactly the memory that [insert_end]
    ends in, whatever the value and whatever the allocator answers; and
    when the allocations succeed the new element is appended: the chain is
    the old one followed by the new link. *)
Theorem C2_insert_at_length_is_insert_end :
  forall (m : mem) (lst : ptr) (sz : N) (ns : list link) (data : option (list byte)),
    is_list m lst sz ns ->
    (let* n := sll_len lst in insert_at_index lst data n) m = insert_end lst data m /\
    (forall a d src,
        data = Some src -> sz <= N.of_nat (length src) -> allocates sz m a d ->
        exists m',
          insert_end lst data m = Done tt m' /\
          is_list m' lst sz (ns ++ [new_link sz a d src])).
Proof.
  intros m lst sz ns data Hil. split.
  - rewrite (bind_done _ _ _ _ _ (sll_len_run _ _ _ _ Hil)).
    pose proof Hil as [Hnn Hl Hc Hnd Hg].
    rewrite insert_at_index_parts, insert_end_parts.
    destruct data as [src|];
      [|by rewrite !(bind_done _ _ _ _ _ (new_node_for_None lst m))].
    destruct (new_node_for_cases lst src _ m Hl Hnn)
      as [(rest & Hf & Hr)|(a & d & rest & Hal & Ho & Hfr & [[Hsrc Hr]|[Hlt Hr]])];
      simpl in *.
    + by rewrite !(bind_done _ _ _ _ _ Hr).
    + rewrite !(bind_done _ _ _ _ _ Hr).
      etrans; [apply (link_at_index_run m lst sz ns (new_link sz a d src) rest _ Hil Hfr); lia|].
      symmetry.
      etrans; [apply (link_end_run m lst sz ns (new_link sz a d src) rest Hil Hfr)|].
      by rewrite Nat2N.id.
    + by rewrite !(bind_fault _ _ _ Hr).
  - intros a d src -> Hsrc Hal.
    destruct (insert_op_ok m lst sz ns (Insert_end (Some src)) a d src
                eq_refl eq_refl Hil Hal Hsrc (le_n _)) as (rest & Ho & Hfr & Hrun).
    simpl in Hrun. eexists. split; [exact Hrun|].
    pose proof (is_list_insert m rest (trace m) lst sz ns (length ns) _ Hil Hfr
                  (fresh_good _ _ _ _ _ Hfr Hsrc) (le_n _)) as H.
    by rewrite take_ge, drop_ge in H by lia.
Qed.

(** C2 at a concrete input: the one-element list, the value "B", a serving allocator. *)
Lemma C2_witness :
  is_list sample_mem 16 1 sample_chain /\
  1 <= N.of_nat (length ["B"%byte]) /\
  allocates 1 sample_mem 64 80 /\
  (let* n := sll_len 16 in insert_at_index 16 (Some ["B"%byte]) n) sample_mem =
  insert_end 16 (Some ["B"%byte]) sample_mem /\
  exists m',
    insert_end 16 (Some ["B"%byte]) sample_mem = Done tt m' /\
    is_list m' 16 1 (sample_chain ++ [new_link 1 64 80 ["B"%byte]]).
Proof.
  destruct (C2_insert_at_length_is_insert_end sample_mem 16 1 sample_chain
              (Some ["B"%byte]) sample_is_list) as [Heq Hend].
  split; [exact sample_is_list|]. split; [simpl; lia|].
  split; [exact sample_allocates|]. split; [exact Heq|].
  apply (Hend 64 80 ["B"%byte] eq_refl); [simpl; lia|exact sample_allocates].
Defined.

(** C3: [insert_at_index] with index 0 ends in exactly the memory that
    [insert_front] ends in, in every memory, for every list pointer and
    value; and on a well-formed list, when the allocations succeed, the
    new link is the first of the chain and the old chain follows it. *)
Theorem C3_insert_at_zero_is_insert_front :
  forall (m : mem) (lst : ptr) (data : option (list byte)),
    insert_at_index lst data 0 m = insert_front lst data m /\
    (forall sz ns a d src,
        is_list m lst sz ns ->
        data = Some src -> sz <= N.of_nat (length src) -> allocates sz m a d ->
        exists m',
          insert_at_index lst data 0 m = Done tt m' /\
          is_list m' lst sz (new_link sz a d src :: ns)).
Proof.
  intros m lst data. split.
  - rewrite insert_at_index_parts, insert_front_parts. unfold bind.
    destruct (new_node_for lst data m) as [[n|] m'| |]; try reflexivity.
    apply link_at_index_zero.
  - intros sz ns a d src Hil -> Hsrc Hal.
    destruct (insert_op_ok m lst sz ns (Insert_at_index (Some src) 0) a d src
                eq_refl eq_refl Hil Hal Hsrc (Nat.le_0_l _)) as (rest & Ho & Hfr & Hrun).
    simpl in Hrun. eexists. split; [exact Hrun|].
    apply (is_list_insert m rest (trace m) lst sz ns 0 _ Hil Hfr
             (fresh_good _ _ _ _ _ Hfr Hsrc) (Nat.le_0_l _)).
Qed.

(** C3 at a concrete input: the one-element list, the value "B", a serving allocator. *)
Lemma C3_witness :
  insert_at_index 16 (Some ["B"%byte]) 0 sample_mem =
  insert_front 16 (Some ["B"%byte]) sample_mem /\
  is_list sample_mem 16 1 sample_chain /\
  1 <= N.of_nat (length ["B"%byte]) /\
  allocates 1 sample_mem 64 80 /\
  exists m',
    insert_at_index 16 (Some ["B"%byte]) 0 sample_mem = Done tt m' /\
    is_list m' 16 1 (new_link 1 64 80 ["B"%byte] :: sample_chain).
Proof.
  destruct (C3_insert_at_zero_is_insert_front sample_mem 16 (Some ["B"%byte])) as [Heq Hfront].
  split; [exact Heq|]. split; [exact sample_is_list|].
  split; [simpl; lia|]. split; [exact sample_allocates|].
  apply (Hfront 1 sample_chain 64 80 ["B"%byte] sample_is_list eq_refl);
    [simpl; lia|exact sample_allocates].
Defined.

(** C4, as stated, fails: it speaks of every list and every index, and
    [insert_at_index] gives up without a sign when an allocation fails.
    On the one-element list with an allocator that serves the node and
    refuses the payload, the insertion at index 0 returns having inserted
    nothing, and [free_at_index] at index 0 then removes the element that
    was there: the length goes from 1 to 0 and the old chain is gone. *)
Lemma C4_failed_insertion_then_remove_loses_an_element :
  is_list starved_mem 16 1 sample_chain /\
  sll_len 16 starved_mem = Done 1 starved_mem /\
  exists m',
    (insert_at_index 16 (Some ["B"%byte]) 0 ;; free_at_index 16 0) starved_mem = Done tt m' /\
    sll_len 16 m' = Done 0 m' /\
    is_list m' 16 1 [] /\
    heap m' !! 32 = None /\
    ~ is_list m' 16 1 sample_chain.
Proof.
  split; [exact starved_is_list|]. split; [vm_compute; reflexivity|].
  eexists. split; [vm_compute; reflexivity|].
  split; [vm_compute; reflexivity|].
  split; [split; [discriminate|reflexivity|exact I|constructor|constructor]|].
  split; [reflexivity|].
  intros [_ Hdesc _ _ _]. vm_compute in Hdesc. discriminate.
Qed.

(** C4, amended: on a well-formed list, for every index (in range or not),
    when the two allocations of the insertion succeed, inserting at the
    index and then removing at the same index returns with the chain as
    it was - the same links, so the same elements in the same order - and
    with every allocation as it was. *)
Theorem C4_insert_then_remove_restores :
  forall (m : mem) (lst : ptr) (sz : N) (ns : list link)
         (src : list byte) (index : N) (a d : ptr),
    is_list m lst sz ns ->
    sz <= N.of_nat (length src) ->
    allocates sz m a d ->
    exists m',
      (insert_at_index lst (Some src) index ;; free_at_index lst index) m = Done tt m' /\
      is_list m' lst sz ns /\
      heap m' = heap m.
Proof.
  intros m lst sz ns src index a d Hil Hsrc Hal.
  destruct (decide (N.to_nat index <= length ns)%nat) as [Hpos|Hpos].
  - destruct (insert_op_ok m lst sz ns (Insert_at_index (Some src) index) a d src
                eq_refl eq_refl Hil Hal Hsrc Hpos) as (rest & Ho & Hfr & Hrun).
    simpl in Hrun.
    pose proof (is_list_insert m rest (trace m) lst sz ns (N.to_nat index) _ Hil Hfr
                  (fresh_good _ _ _ _ _ Hfr Hsrc) Hpos) as Hil1.
    eexists. split.
    { eapply bind_run; [exact Hrun|]. eapply free_at_index_run. exact Hil1. }
    assert (heap_remove (heap_insert (heap m) lst sz ns (N.to_nat index) (new_link sz a d src))
              lst sz (take (N.to_nat index) ns ++ new_link sz a d src :: drop (N.to_nat index) ns)
              (N.to_nat index) = heap m) as Hback by (by apply heap_remove_insert).
    simpl. split; [|exact Hback].
    eapply is_list_heap; [|exact Hil]. exact Hback.
  - destruct (insert_at_index_oob m lst sz ns index a d src Hil Hal Hsrc) as (rest & Ho & Hrun);
      [lia|].
    assert (is_list {| heap := heap m; oracle := rest; trace := trace m |} lst sz ns) as Hil1
      by (eapply is_list_heap; [|exact Hil]; done).
    eexists. split.
    { eapply bind_run; [exact Hrun|]. eapply free_at_index_run. exact Hil1. }
    assert (heap_remove (heap m) lst sz ns (N.to_nat index) = heap m) as Hback.
    { unfold heap_remove. by rewrite lookup_ge_None_2 by lia. }
    simpl. split; [|exact Hback].
    eapply is_list_heap; [|exact Hil]. exact Hback.
Qed.

(** C4 at a concrete input: the one-element list, index 1, the value "B". *)
Lemma C4_witness :
  is_list sample_mem 16 1 sample_chain /\
  1 <= N.of_nat (length ["B"%byte]) /\
  allocates 1 sample_mem 64 80 /\
  exists m',
    (insert_at_index 16 (Some ["B"%byte]) 1 ;; free_at_index 16 1) sample_mem = Done tt m' /\
    is_list m' 16 1 sample_chain /\
    heap m' = heap sample_mem.
Proof.
  split; [exact sample_is_list|]. split; [simpl; lia|]. split; [exact sample_allocates|].
  apply (C4_insert_then_remove_restores sample_mem 16 1 sample_chain ["B"%byte] 1 64 80
           sample_is_list); [simpl; lia|exact sample_allocates].
Defined.

(** C5: on a freshly created list, every sequence of insertions and
    removals (with values the insert functions can copy) runs to its end,
    and the length [sll_len] then returns is the number of insertions that
    succeeded minus the number of removals that succeeded. *)
Theorem C5_length_is_net_insertions :
  forall (size : N) (m0 m1 : mem) (lst : ptr) (os : list op),
    sllist_create size m0 = Done lst m1 ->
    lst <> NULL ->
    Forall (op_readable size) os ->
    exists ins rem m2,
      run_ops lst os 0 0 m1 = Done (ins, rem) m2 /\
      rem <= ins /\
      sll_len lst m2 = Done (ins - rem) m2.
Proof.
  intros size m0 m1 lst os Hcreate Hnn Hrd.
  destruct (sllist_create_is_list _ _ _ _ Hcreate Hnn) as [Hil _].
  destruct (run_ops_tally lst size os m1 [] 0 0 Hil Hrd eq_refl)
    as (ins & rem & m2 & ns & Hrun & Hil2 & Hcount).
  exists ins, rem, m2. split; [done|]. split; [lia|].
  rewrite (sll_len_run _ _ _ _ Hil2). f_equal. lia.
Qed.

(** C5 at a concrete input: a fresh list and a run of six operations, two of them out of range or without a value. *)
Lemma C5_witness :
  sllist_create 1 blank_mem = Done 16 blank_list_mem /\
  16 <> NULL /\
  Forall (op_readable 1) sample_run /\
  exists ins rem m2,
    run_ops 16 sample_run 0 0 blank_list_mem = Done (ins, rem) m2 /\
    rem <= ins /\
    sll_len 16 m2 = Done (ins - rem) m2.
Proof.
  assert (sllist_create 1 blank_mem = Done 16 blank_list_mem) as Hcreate by (vm_compute; reflexivity).
  assert (16 <> NULL) as Hnn by discriminate.
  assert (Forall (op_readable 1) sample_run) as Hrd by (repeat constructor; simpl; lia).
  split; [exact Hcreate|]. split; [exact Hnn|]. split; [exact Hrd|].
  exact (C5_length_is_net_insertions 1 blank_mem blank_list_mem 16 sample_run Hcreate Hnn Hrd).
Defined.

(** C6: on a well-formed list, when the allocation of the node fails, or
    the allocation of the payload fails after the node was allocated,
    each insert function returns with every allocation as it was: the
    chain is the old one, nothing is linked, and the address of the node
    that had been allocated is not live any more. *)
Theorem C6_failed_allocation_leaves_list :
  forall (m : mem) (lst : ptr) (sz : N) (ns : list link) (o : op),
    is_insertion o = true ->
    is_list m lst sz ns ->
    alloc_failure sz m ->
    exists m',
      run_op lst o m = Done tt m' /\
      heap m' = heap m /\ trace m' = trace m /\
      is_list m' lst sz ns /\
      (forall a m1, malloc fresh_node m = Done a m1 -> a <> NULL -> heap m' !! a = None).
Proof.
  intros m lst sz ns o Hins Hil Hf.
  destruct (insert_op_fail _ _ _ _ _ Hins Hil Hf) as (rest & Hrun).
  eexists. split; [exact Hrun|]. simpl. split; [done|]. split; [done|].
  split; [by eapply is_list_heap; [|exact Hil]|].
  intros a m1 Hm Ha.
  destruct (malloc_cases fresh_node m) as [(r & H)|(a' & r & _ & Hu & H)];
    rewrite H in Hm; simplify_eq.
  by apply usable_spec in Hu as (_ & _ & Hu).
Qed.

(** C6 at a concrete input: the one-element list with an allocator that serves the node and not the payload. *)
Lemma C6_witness :
  is_insertion (Insert_end (Some ["B"%byte])) = true /\
  is_list starved_mem 16 1 sample_chain /\
  alloc_failure 1 starved_mem /\
  exists m',
    run_op 16 (Insert_end (Some ["B"%byte])) starved_mem = Done tt m' /\
    heap m' = heap starved_mem /\ trace m' = trace starved_mem /\
    is_list m' 16 1 sample_chain /\
    (forall a m1, malloc fresh_node starved_mem = Done a m1 -> a <> NULL -> heap m' !! a = None).
Proof.
  split; [reflexivity|]. split; [exact starved_is_list|].
  split; [exact starved_alloc_failure|].
  exact (C6_failed_allocation_leaves_list starved_mem 16 1 sample_chain
           (Insert_end (Some ["B"%byte])) eq_refl starved_is_list starved_alloc_failure).
Defined.

(** C7: on a well-formed list, [free_at_index] with an index that is not
    below the length [sll_len] returns does nothing at all: it returns in
    the memory it was called in, so length and order are unchanged. *)
Theorem C7_remove_out_of_bounds_is_noop :
  forall (m : mem) (lst : ptr) (sz : N) (ns : list link) (len index : N),
    is_list m lst sz ns ->
    sll_len lst m = Done len m ->
    len <= index ->
    free_at_index lst index m = Done tt m /\
    (free_at_index lst index ;; sll_len lst) m = Done len m.
Proof.
  intros m lst sz ns len index Hil Hlen Hi.
  rewrite (sll_len_run _ _ _ _ Hil) in Hlen. simplify_eq.
  assert (free_at_index lst index m = Done tt m) as Hrun.
  { rewrite (free_at_index_run _ _ _ _ _ Hil). unfold heap_remove.
    rewrite lookup_ge_None_2 by lia. by destruct m. }
  split; [done|]. eapply bind_run; [exact Hrun|]. by eapply sll_len_run.
Qed.

(** C7 at a concrete input: the one-element list and index 1. *)
Lemma C7_witness :
  is_list sample_mem 16 1 sample_chain /\
  sll_len 16 sample_mem = Done 1 sample_mem /\
  1 <= 1 /\
  free_at_index 16 1 sample_mem = Done tt sample_mem /\
  (free_at_index 16 1 ;; sll_len 16) sample_mem = Done 1 sample_mem.
Proof.
  assert (sll_len 16 sample_mem = Done 1 sample_mem) as Hlen by (vm_compute; reflexivity).
  split; [exact sample_is_list|]. split; [exact Hlen|]. split; [lia|].
  apply (C7_remove_out_of_bounds_is_noop sample_mem 16 1 sample_chain 1 1
           sample_is_list Hlen). lia.
Defined.

Lemma visited_app t1 t2 : visited (t1 ++ t2) = visited t1 ++ visited t2.
Proof. unfold visited. apply flat_map_app. Qed.

Lemma visited_visits ns : visited (visits ns) = map (fun n => Some (value n)) ns.
Proof. induction ns as [|n ns IH]; simpl; [done|]. by rewrite <- IH. Qed.

(** C8: on a well-formed list, the traversal calls [print_func] once for
    each link of the chain, from the head on, with the link's payload; it
    returns with every allocation as it was.  Starting from an empty list
    with an allocator that can serve six requests, insert_front(A),
    insert_front(B), insert_end(C) and a traversal show exactly B, A, C
    to [print_func]. *)
Theorem C8_traversal_visits_in_order :
  forall (m : mem) (lst : ptr) (sz : N),
    (forall ns,
        is_list m lst sz ns ->
        exists m',
          print_sllist lst m = Done tt m' /\
          heap m' = heap m /\
          is_list m' lst sz ns /\
          trace m' = trace m ++ visits ns ++ [Printf NULL_line] /\
          visited (visits ns) = map Some (elements ns)) /\
    (forall A B C,
        is_list m lst sz [] ->
        N.of_nat (length A) = sz -> N.of_nat (length B) = sz ->
        N.of_nat (length C) = sz ->
        supply m 6 ->
        exists m' t,
          (insert_front lst (Some A) ;;
           insert_front lst (Some B) ;;
           insert_end lst (Some C) ;;
           print_sllist lst) m = Done tt m' /\
          trace m' = trace m ++ t /\
          visited t = [Some B; Some A; Some C]).
Proof.
  intros m lst sz. split.
  - intros ns Hil. eexists. split; [by eapply print_sllist_run|]. simpl.
    split; [done|]. split; [by eapply is_list_heap; [|exact Hil]|]. split; [done|].
    rewrite visited_visits. unfold elements. by rewrite map_map.
  - intros A B C Hil HA HB HC Hsup.
    destruct (insert_step m lst sz [] (Insert_front (Some A)) A 4 eq_refl eq_refl
                Hil HA Hsup (le_n _)) as (m1 & nA & Hrun1 & HvA & Hil1 & Hsup1 & Ht1).
    simpl in Hrun1, Hil1.
    destruct (insert_step m1 lst sz [nA] (Insert_front (Some B)) B 2 eq_refl eq_refl
                Hil1 HB Hsup1 (Nat.le_0_l _)) as (m2 & nB & Hrun2 & HvB & Hil2 & Hsup2 & Ht2).
    simpl in Hrun2, Hil2.
    destruct (insert_step m2 lst sz [nB; nA] (Insert_end (Some C)) C 0 eq_refl eq_refl
                Hil2 HC Hsup2 (le_n _)) as (m3 & nC & Hrun3 & HvC & Hil3 & _ & Ht3).
    simpl in Hrun3, Hil3.
    eexists _, (visits [nB; nA; nC] ++ [Printf NULL_line]). split.
    { eapply bind_run; [exact Hrun1|]. eapply bind_run; [exact Hrun2|].
      eapply bind_run; [exact Hrun3|]. by eapply print_sllist_run. }
    simpl. split; [by rewrite Ht3, Ht2, Ht1|]. by rewrite HvA, HvB, HvC.
Qed.

(** C8 at a concrete input: the empty list at address 16 with six addresses to hand out. *)
Lemma C8_witness :
  is_list blank_list_mem 16 1 [] /\
  supply blank_list_mem 6 /\
  (exists m',
      print_sllist 16 blank_list_mem = Done tt m' /\
      heap m' = heap blank_list_mem /\
      is_list m' 16 1 [] /\
      trace m' = trace blank_list_mem ++ visits [] ++ [Printf NULL_line] /\
      visited (visits []) = map Some (elements [])) /\
  (exists m' t,
      (insert_front 16 (Some ["A"%byte]) ;;
       insert_front 16 (Some ["B"%byte]) ;;
       insert_end 16 (Some ["C"%byte]) ;;
       print_sllist 16) blank_list_mem = Done tt m' /\
      trace m' = trace blank_list_mem ++ t /\
      visited t = [Some ["B"%byte]; Some ["A"%byte]; Some ["C"%byte]]).
Proof.
  destruct (C8_traversal_visits_in_order blank_list_mem 16 1) as [Hvisit Hscenario].
  split; [exact blank_list_is_list|]. split; [exact blank_list_supply|].
  split; [exact (Hvisit [] blank_list_is_list)|].
  exact (Hscenario ["A"%byte] ["B"%byte] ["C"%byte] blank_list_is_list
           eq_refl eq_refl eq_refl blank_list_supply).
Defined.

(** C9: [sllist_create] records the element size it is given; on a
    well-formed list with element size [sz], every insertion and removal
    (with a value the insert functions can copy) returns with a
    well-formed list whose recorded element size is still [sz] and whose
    payloads all hold exactly [sz] bytes; [sll_len] and [print_sllist]
    return with every allocation, the descriptor included, as it was. *)
Theorem C9_element_size_is_fixed :
  (forall size m lst m',
      sllist_create size m = Done lst m' -> lst <> NULL ->
      element_size m' lst = Some size) /\
  (forall m lst sz ns o,
      is_list m lst sz ns -> op_readable sz o ->
      exists m' ns',
        run_op lst o m = Done tt m' /\
        is_list m' lst sz ns' /\
        element_size m' lst = Some sz /\
        Forall (fun n => N.of_nat (length (value n)) = sz) ns') /\
  (forall m lst sz ns,
      is_list m lst sz ns ->
      (exists n, sll_len lst m = Done n m) /\
      (exists m', print_sllist lst m = Done tt m' /\ heap m' = heap m /\
                  element_size m' lst = Some sz)).
Proof.
  assert (forall m lst sz ns, is_list m lst sz ns ->
            element_size m lst = Some sz /\
            Forall (fun n => N.of_nat (length (value n)) = sz) ns) as Hsize.
  { intros m lst sz ns [Hnn Hl Hc Hnd Hg]. split.
    - unfold element_size. by rewrite Hl.
    - eapply Forall_impl; [exact Hg|]. by intros n (_ & _ & _ & H). }
  split; [|split].
  - intros size m lst m' Hcreate Hnn.
    destruct (sllist_create_is_list _ _ _ _ Hcreate Hnn) as [Hil _].
    by destruct (Hsize _ _ _ _ Hil).
  - intros m lst sz ns o Hil Hrd.
    destruct (is_insertion o) eqn:Hins.
    + destruct (insert_op_effect _ _ _ _ _ Hins Hil Hrd) as (m' & ns' & Hrun & Hil' & _).
      exists m', ns'. destruct (Hsize _ _ _ _ Hil'). done.
    + destruct (remove_op_effect _ _ _ _ _ Hins Hil) as (m' & ns' & Hrun & Hil' & _).
      exists m', ns'. destruct (Hsize _ _ _ _ Hil'). done.
  - intros m lst sz ns Hil. split.
    + eexists. by eapply sll_len_run.
    + eexists. split; [by eapply print_sllist_run|]. split; [done|].
      unfold element_size. simpl. destruct (Hsize _ _ _ _ Hil) as [H _]. exact H.
Qed.

(** C9 at a concrete input: creation in a blank memory, an insertion into the one-element list. *)
Lemma C9_witness :
  sllist_create 1 blank_mem = Done 16 blank_list_mem /\
  16 <> NULL /\
  element_size blank_list_mem 16 = Some 1 /\
  is_list sample_mem 16 1 sample_chain /\
  op_readable 1 (Insert_at_index (Some ["B"%byte]) 1) /\
  (exists m' ns',
      run_op 16 (Insert_at_index (Some ["B"%byte]) 1) sample_mem = Done tt m' /\
      is_list m' 16 1 ns' /\
      element_size m' 16 = Some 1 /\
      Forall (fun n => N.of_nat (length (value n)) = 1) ns') /\
  (exists n, sll_len 16 sample_mem = Done n sample_mem) /\
  (exists m', print_sllist 16 sample_mem = Done tt m' /\ heap m' = heap sample_mem /\
              element_size m' 16 = Some 1).
Proof.
  assert (sllist_create 1 blank_mem = Done 16 blank_list_mem) as Hcreate by (vm_compute; reflexivity).
  assert (16 <> NULL) as Hnn by discriminate.
  assert (op_readable 1 (Insert_at_index (Some ["B"%byte]) 1)) as Hrd by (simpl; lia).
  destruct C9_element_size_is_fixed as (Hc & Hop & Hread).
  split; [exact Hcreate|]. split; [exact Hnn|].
  split; [exact (Hc 1 blank_mem 16 blank_list_mem Hcreate Hnn)|].
  split; [exact sample_is_list|]. split; [exact Hrd|].
  split; [exact (Hop sample_mem 16 1 sample_chain _ sample_is_list Hrd)|].
  exact (Hread sample_mem 16 1 sample_chain sample_is_list).
Defined.

(** C10: on a well-formed list, after the calls of [print_func] the
    traversal writes the text NULL and a newline, once, as its last
    output; on an empty list that is all it does. *)
Theorem C10_traversal_ends_with_NULL_line :
  forall (m : mem) (lst : ptr) (sz : N) (ns : list link),
    is_list m lst sz ns ->
    exists m',
      print_sllist lst m = Done tt m' /\
      trace m' = (trace m ++ visits ns) ++ [Printf NULL_line] /\
      (ns = [] -> trace m' = trace m ++ [Printf NULL_line]) /\
      NULL_line =
      String "N" (String "U" (String "L" (String "L" (String "010" EmptyString)))).
Proof.
  intros m lst sz ns Hil. eexists. split; [by eapply print_sllist_run|]. simpl.
  split; [by rewrite app_assoc|]. split; [by intros ->|reflexivity].
Qed.

(** C10 at a concrete input: the empty list. *)
Lemma C10_witness :
  is_list blank_list_mem 16 1 [] /\
  exists m',
    print_sllist 16 blank_list_mem = Done tt m' /\
    trace m' = (trace blank_list_mem ++ visits []) ++ [Printf NULL_line] /\
    (@nil link = [] -> trace m' = trace blank_list_mem ++ [Printf NULL_line]) /\
    NULL_line =
    String "N" (String "U" (String "L" (String "L" (String "010" EmptyString)))).
Proof.
  split; [exact blank_list_is_list|].
  exact (C10_traversal_ends_with_NULL_line blank_list_mem 16 1 [] blank_list_is_list).
Defined.

(** * More of the code *)

(** ** What an operation leaves alone *)

Lemma footprint_insert_elem ns i new x :
  x ∈ footprint (take i ns ++ new :: drop i ns) <->
  x = node_at new \/ x = data_at new \/ x ∈ footprint ns.
Proof.
  rewrite <- (take_drop i ns) at 3. rewrite !footprint_app. simpl.
  rewrite !elem_of_app, !elem_of_cons. tauto.
Qed.

Lemma footprint_delete_elem ns i t x :
  ns !! i = Some t ->
  x ∈ footprint ns <->
  x = node_at t \/ x = data_at t \/ x ∈ footprint (delete i ns).
Proof.
  intros Ht. rewrite delete_take_drop.
  rewrite <- (take_drop_middle ns i t Ht) at 1. rewrite !footprint_app. simpl.
  rewrite !elem_of_app, !elem_of_cons. tauto.
Qed.

Lemma heap_insert_frame h lst sz ns i new x :
  x <> lst -> x ∉ footprint ns -> x <> node_at new -> x <> data_at new ->
  heap_insert h lst sz ns i new !! x = h !! x.
Proof.
  intros Hl Hf Ha Hd. unfold heap_insert. destruct i as [|j].
  - by rewrite !lookup_insert_ne.
  - destruct (ns !! j) as [p|] eqn:Hp; [|by rewrite !lookup_insert_ne].
    destruct (footprint_lookup _ _ _ Hp) as [Hpn _].
    assert (node_at p <> x) by (intros E; rewrite E in Hpn; done).
    by rewrite !lookup_insert_ne.
Qed.

Lemma heap_remove_frame h lst sz ns i x :
  x <> lst -> x ∉ footprint ns ->
  heap_remove h lst sz ns i !! x = h !! x.
Proof.
  intros Hl Hf. unfold heap_remove.
  destruct (ns !! i) as [t|] eqn:Ht; [|done].
  destruct (footprint_lookup _ _ _ Ht) as [Htn Htd].
  assert (node_at t <> x) by (intros E; rewrite E in Htn; done).
  assert (data_at t <> x) by (intros E; rewrite E in Htd; done).
  rewrite !lookup_delete_ne by done.
  destruct i as [|j]; [by rewrite lookup_insert_ne|].
  destruct (ns !! j) as [p|] eqn:Hp; [|done].
  destruct (footprint_lookup _ _ _ Hp) as [Hpn _].
  rewrite lookup_insert_ne; [done|]. intros E; rewrite E in Hpn; done.
Qed.

Lemma heap_remove_gone h lst sz ns i t :
  ns !! i = Some t ->
  heap_remove h lst sz ns i !! node_at t = None /\
  heap_remove h lst sz ns i !! data_at t = None.
Proof.
  intros Ht. unfold heap_remove. rewrite Ht. split.
  - apply lookup_delete_eq.
  - rewrite lookup_delete. case_decide; [done|]. apply lookup_delete_eq.
Qed.

(** Every operation on a well-formed list returns with a well-formed
    list; it writes the descriptor, cells of the chain and cells it
    allocates, which were not live, and the cells that leave the chain are
    released. *)
Lemma op_frame m lst sz ns o :
  is_list m lst sz ns -> op_readable sz o ->
  exists m' ns',
    run_op lst o m = Done tt m' /\ is_list m' lst sz ns' /\ trace m' = trace m /\
    (forall x, x <> lst -> x ∉ footprint ns -> x ∉ footprint ns' ->
               heap m' !! x = heap m !! x) /\
    (forall x, x ∈ footprint ns' -> x ∉ footprint ns -> heap m !! x = None) /\
    (forall x, x ∈ footprint ns -> x ∉ footprint ns' -> heap m' !! x = None).
Proof.
  intros Hil Hrd. pose proof Hil as [Hnn Hl Hc Hnd Hg].
  assert (forall rest, exists m' ns',
            Done tt {| heap := heap m; oracle := rest; trace := trace m |} = Done tt m' /\
            is_list m' lst sz ns' /\ trace m' = trace m /\
            (forall x, x <> lst -> x ∉ footprint ns -> x ∉ footprint ns' ->
                       heap m' !! x = heap m !! x) /\
            (forall x, x ∈ footprint ns' -> x ∉ footprint ns -> heap m !! x = None) /\
            (forall x, x ∈ footprint ns -> x ∉ footprint ns' -> heap m' !! x = None)) as Hsame.
  { intros rest. eexists _, ns. split; [done|].
    split; [by eapply is_list_heap; [|exact Hil]|]. by repeat split. }
  destruct (is_insertion o) eqn:Hins.
  - assert (op_readable sz o = readable sz (op_data o)) as E by (by destruct o).
    rewrite E in Hrd. clear E.
    destruct (op_data o) as [src|] eqn:Hdata.
    2:{ rewrite (insert_op_parts lst o Hins), Hdata.
        rewrite (bind_done _ _ _ _ _ (new_node_for_None lst m)).
        replace (ret tt m) with (Done tt {| heap := heap m; oracle := oracle m; trace := trace m |})
          by (by destruct m).
        apply Hsame. }
    simpl in Hrd.
    destruct (new_node_for_cases lst src _ m Hl Hnn)
      as [(rest & Hf & Hr)|(a & d & rest & Hal & Ho & Hfr & [[_ Hr]|[Hlt _]])];
      simpl in *; [| |lia].
    { rewrite (insert_op_parts lst o Hins), Hdata.
      rewrite (bind_done _ _ _ _ _ Hr). apply Hsame. }
    destruct (decide (insert_pos o ns <= length ns)%nat) as [Hpos|Hpos].
    + destruct (insert_op_ok _ _ _ _ _ _ _ _ Hins Hdata Hil Hal Hrd Hpos)
        as (rest' & Ho' & _ & Hrun).
      destruct Hfr as (Ha & Hd & Had & Hab & Hfa & Hfd). simpl in *.
      eexists _, _. split; [exact Hrun|]. split.
      { apply is_list_insert; [done|by repeat split|by apply good_new_link|done]. }
      split; [done|]. simpl. split; [|split].
      * intros x Hxl Hx Hx'. rewrite footprint_insert_elem in Hx'. simpl in Hx'.
        apply heap_insert_frame; simpl; tauto.
      * intros x Hx Hx'. rewrite footprint_insert_elem in Hx. simpl in Hx.
        destruct Hx as [->| [->|Hx]]; done.
      * intros x Hx Hx'. rewrite footprint_insert_elem in Hx'. tauto.
    + destruct o as [data|data|data index| | |]; simplify_eq/=; try lia.
      destruct (insert_at_index_oob _ _ _ _ index _ _ _ Hil Hal Hrd) as (rest' & Ho' & Hrun);
        [lia|].
      rewrite Hrun. apply Hsame.
  - rewrite (remove_op_run _ _ _ _ _ Hins Hil).
    eexists _, _. split; [done|]. split; [by apply is_list_remove|].
    split; [done|]. simpl.
    destruct (ns !! remove_pos o ns) as [t|] eqn:Ht.
    + split; [|split].
      * intros x Hxl Hx _. by apply heap_remove_frame.
      * intros x Hx Hx'. rewrite (footprint_delete_elem _ _ _ x Ht) in Hx'. tauto.
      * intros x Hx Hx'. rewrite (footprint_delete_elem _ _ _ x Ht) in Hx.
        destruct (heap_remove_gone (heap m) lst sz ns _ t Ht) as [H1 H2].
        destruct Hx as [->|[->|Hx]]; done.
    + apply lookup_ge_None in Ht.
      assert (delete (remove_pos o ns) ns = ns) as ->.
      { rewrite delete_take_drop, take_ge, drop_ge by lia. apply app_nil_r. }
      split; [|split]; try done.
      intros x Hxl Hx _. by apply heap_remove_frame.
Qed.

(** ** Teardown, once more, and what follows it *)

Lemma free_sllist_spec m lst sz ns :
  is_list m lst sz ns ->
  exists m',
    free_sllist lst m = Done tt m' /\
    oracle m' = oracle m /\ trace m' = trace m /\
    forall x, heap m' !! x =
              if decide (x ∈ lst :: footprint ns) then None else heap m !! x.
Proof.
  intros [Hnn Hl Hc Hnd Hg]. unfold free_sllist.
  assert (lst ∉ footprint ns) as Hlf by (by eapply lseg_not_list).
  destruct (free_nodes_run sz ns (S (size (heap m))) m Hc Hnd Hg)
    as (m' & Hrun & Ho & Ht & Hh).
  { apply Nat.lt_succ_r. by eapply lseg_size. }
  assert (heap m' !! lst = heap m !! lst) as Hl' by (rewrite Hh; by rewrite decide_False).
  eexists. split.
  { eapply bind_run; [by eapply get_head_run|]. simpl.
    eapply bind_run; [reflexivity|]. cbn beta.
    eapply bind_run; [exact Hrun|].
    eapply free_run; [done|by rewrite Hl']. }
  split; [done|]. split; [done|].
  intros x. simpl. rewrite lookup_delete, Hh.
  destruct (decide (x ∈ footprint ns)) as [H1|H1];
    destruct (decide (x ∈ lst :: footprint ns)) as [H2|H2];
    rewrite ?elem_of_cons, ?not_elem_of_cons in H2;
    repeat case_decide; try done; intuition congruence.
Qed.

Lemma get_head_dangling lst m : heap m !! lst = None -> get_head lst m = Fault.
Proof. intros H. unfold get_head, load_list, bind, load. by rewrite H. Qed.

Lemma get_head_same lst m hd m' : get_head lst m = Done hd m' -> m' = m.
Proof.
  unfold get_head, load_list, bind, load, ret, fault.
  destruct (heap m !! lst) as [[l|n|bs]|]; simpl; intros H; by simplify_eq.
Qed.

Lemma sample_pair_is_list : is_list pair_mem 16 1 pair_chain.
Proof.
  split.
  - discriminate.
  - reflexivity.
  - repeat split.
  - apply NoDup_ListNoDup. repeat constructor; simpl; intuition discriminate.
  - repeat constructor; simpl; discriminate.
Qed.

Lemma two_lists_first : is_list two_lists_mem 16 1 sample_chain.
Proof.
  split.
  - discriminate.
  - reflexivity.
  - repeat split.
  - apply NoDup_ListNoDup. repeat constructor; simpl; intuition discriminate.
  - repeat constructor; simpl; discriminate.
Qed.

Lemma two_lists_second : is_list two_lists_mem 128 2 other_chain.
Proof.
  split.
  - discriminate.
  - reflexivity.
  - repeat split.
  - apply NoDup_ListNoDup. repeat constructor; simpl; intuition discriminate.
  - repeat constructor; simpl; discriminate.
Qed.

Lemma run_ops_frame lst sz (h0 : gmap N object) os : forall m ns i0 r0,
  is_list m lst sz ns -> Forall (op_readable sz) os ->
  (forall x, x <> lst -> x ∉ footprint ns -> heap m !! x = h0 !! x) ->
  (forall x, x ∈ footprint ns -> h0 !! x = None) ->
  exists tally m' ns',
    run_ops lst os i0 r0 m = Done tally m' /\
    is_list m' lst sz ns' /\ trace m' = trace m /\
    (forall x, x <> lst -> x ∉ footprint ns' -> heap m' !! x = h0 !! x) /\
    (forall x, x ∈ footprint ns' -> h0 !! x = None).
Proof.
  induction os as [|o os IH]; intros m ns i0 r0 Hil Hrd Hout Hin.
  { exists (i0, r0), m, ns. done. }
  apply Forall_cons in Hrd as [Hro Hrd]. cbn [run_ops].
  destruct (op_frame _ _ _ _ _ Hil Hro) as (m' & ns' & Hrun & Hil' & Ht & F1 & F2 & F3).
  rewrite Hrun.
  assert (lst ∉ footprint ns') as Hlf.
  { destruct Hil' as [_ Hl' Hc' _ _]. by eapply lseg_not_list. }
  edestruct (IH m' ns') as (tally & m'' & ns'' & Hrun' & Hil'' & Ht' & Hout' & Hin');
    [exact Hil'|exact Hrd| | |].
  - intros x Hxl Hx'. destruct (decide (x ∈ footprint ns)) as [Hx|Hx].
    + rewrite (F3 x Hx Hx'). symmetry. by apply Hin.
    + rewrite (F1 x Hxl Hx Hx'). by apply Hout.
  - intros x Hx'. destruct (decide (x ∈ footprint ns)) as [Hx|Hx]; [by apply Hin|].
    rewrite <- (Hout x); [by apply F2| |done]. intros ->. done.
  - exists tally, m'', ns''. split; [exact Hrun'|]. split; [done|].
    split; [by rewrite Ht'|]. done.
Qed.

Lemma run_insert_fronts lst sz vs : forall m ns i0 r0,
  is_list m lst sz ns ->
  Forall (fun v => N.of_nat (length v) = sz) vs ->
  supply m (length vs + length vs) ->
  exists tally m' ns',
    run_ops lst (map (fun v => Insert_front (Some v)) vs) i0 r0 m = Done tally m' /\
    is_list m' lst sz ns' /\
    elements ns' = rev vs ++ elements ns.
Proof.
  induction vs as [|v vs IH]; intros m ns i0 r0 Hil Hvs Hsup.
  { exists (i0, r0), m, ns. done. }
  apply Forall_cons in Hvs as [Hv Hvs].
  simpl in Hsup. rewrite Nat.add_succ_r in Hsup.
  destruct (insert_step m lst sz ns (Insert_front (Some v)) v _ eq_refl eq_refl
              Hil Hv Hsup (Nat.le_0_l _)) as (m1 & new & Hrun & Hval & Hil1 & Hsup1 & _).
  simpl in Hrun, Hil1. cbn [map run_ops run_op]. rewrite Hrun.
  edestruct (IH m1 (new :: ns)) as (tally & m' & ns' & Hrun' & Hil' & Hel);
    [exact Hil1|exact Hvs|exact Hsup1|].
  exists tally, m', ns'. split; [exact Hrun'|]. split; [done|].
  rewrite Hel. simpl. rewrite Hval. by rewrite <- app_assoc.
Qed.

Lemma run_insert_ends lst sz vs : forall m ns i0 r0,
  is_list m lst sz ns ->
  Forall (fun v => N.of_nat (length v) = sz) vs ->
  supply m (length vs + length vs) ->
  exists tally m' ns',
    run_ops lst (map (fun v => Insert_end (Some v)) vs) i0 r0 m = Done tally m' /\
    is_list m' lst sz ns' /\
    elements ns' = elements ns ++ vs.
Proof.
  induction vs as [|v vs IH]; intros m ns i0 r0 Hil Hvs Hsup.
  { exists (i0, r0), m, ns. by rewrite app_nil_r. }
  apply Forall_cons in Hvs as [Hv Hvs].
  simpl in Hsup. rewrite Nat.add_succ_r in Hsup.
  destruct (insert_step m lst sz ns (Insert_end (Some v)) v _ eq_refl eq_refl
              Hil Hv Hsup (le_n _)) as (m1 & new & Hrun & Hval & Hil1 & Hsup1 & _).
  simpl in Hrun, Hil1. rewrite take_ge, drop_ge in Hil1 by lia.
  cbn [map run_ops run_op]. rewrite Hrun.
  edestruct (IH m1 (ns ++ [new])) as (tally & m' & ns' & Hrun' & Hil' & Hel);
    [exact Hil1|exact Hvs|exact Hsup1|].
  exists tally, m', ns'. split; [exact Hrun'|]. split; [done|].
  rewrite Hel. unfold elements. rewrite map_app. simpl. rewrite Hval.
  by rewrite <- app_assoc.
Qed.

(** * Further properties of the code *)

(** X1: on a well-formed list, [free_sllist] returns; afterwards neither
    the descriptor nor any node or payload of the chain is live, every
    other allocation is as it was, and nothing was allocated or printed. *)
Theorem X1_free_sllist_releases_the_list :
  forall (m : mem) (lst : ptr) (sz : N) (ns : list link),
    is_list m lst sz ns ->
    exists m',
      free_sllist lst m = Done tt m' /\
      oracle m' = oracle m /\ trace m' = trace m /\
      (forall x, x ∈ lst :: footprint ns -> heap m' !! x = None) /\
      (forall x, x ∉ lst :: footprint ns -> heap m' !! x = heap m !! x).
Proof.
  intros m lst sz ns Hil.
  destruct (free_sllist_spec _ _ _ _ Hil) as (m' & Hrun & Ho & Ht & Hh).
  exists m'. split; [done|]. split; [done|]. split; [done|].
  split; intros x Hx; rewrite Hh; [by rewrite decide_True|by rewrite decide_False].
Qed.

(** X1 at a concrete input: the two-element list. *)
Lemma X1_witness :
  is_list pair_mem 16 1 pair_chain /\
  exists m',
    free_sllist 16 pair_mem = Done tt m' /\
    oracle m' = oracle pair_mem /\ trace m' = trace pair_mem /\
    (forall x, x ∈ 16 :: footprint pair_chain -> heap m' !! x = None) /\
    (forall x, x ∉ 16 :: footprint pair_chain -> heap m' !! x = heap pair_mem !! x).
Proof.
  split; [exact sample_pair_is_list|].
  exact (X1_free_sllist_releases_the_list pair_mem 16 1 pair_chain sample_pair_is_list).
Defined.

(** X2: the functions do not guard against a list that has been torn
    down: after [free_sllist] on a well-formed list, the length, the
    traversal, every removal and a second [free_sllist] on the same
    pointer access released storage, which is undefined. *)
Theorem X2_use_after_free_sllist :
  forall (m : mem) (lst : ptr) (sz : N) (ns : list link) (index : N),
    is_list m lst sz ns ->
    exists m',
      free_sllist lst m = Done tt m' /\
      sll_len lst m' = Fault /\
      print_sllist lst m' = Fault /\
      free_at_front lst m' = Fault /\
      free_at_end lst m' = Fault /\
      free_at_index lst index m' = Fault /\
      free_sllist lst m' = Fault.
Proof.
  intros m lst sz ns index Hil.
  destruct (free_sllist_spec _ _ _ _ Hil) as (m' & Hrun & _ & _ & Hh).
  exists m'. split; [done|].
  assert (get_head lst m' = Fault) as Hgone.
  { apply get_head_dangling. rewrite Hh. rewrite decide_True; [done|]. apply elem_of_cons. by left. }
  repeat split; by apply bind_fault.
Qed.

(** X2 at a concrete input: the two-element list, index 1. *)
Lemma X2_witness :
  is_list pair_mem 16 1 pair_chain /\
  exists m',
    free_sllist 16 pair_mem = Done tt m' /\
    sll_len 16 m' = Fault /\
    print_sllist 16 m' = Fault /\
    free_at_front 16 m' = Fault /\
    free_at_end 16 m' = Fault /\
    free_at_index 16 1 m' = Fault /\
    free_sllist 16 m' = Fault.
Proof.
  split; [exact sample_pair_is_list|].
  exact (X2_use_after_free_sllist pair_mem 16 1 pair_chain 1 sample_pair_is_list).
Defined.

(** X3: nothing leaks: whatever insertions and removals (with values
    the insert functions can copy) are run on a freshly created list, and
    whatever the allocator answers, [free_sllist] afterwards returns with
    the allocations exactly as they were before [sllist_create], and
    nothing was printed on the way. *)
Theorem X3_create_run_free_restores_memory :
  forall (size : N) (m0 m1 : mem) (lst : ptr) (os : list op),
    sllist_create size m0 = Done lst m1 ->
    lst <> NULL ->
    Forall (op_readable size) os ->
    exists tally m2 m3,
      run_ops lst os 0 0 m1 = Done tally m2 /\
      free_sllist lst m2 = Done tt m3 /\
      heap m3 = heap m0 /\ trace m3 = trace m0.
Proof.
  intros size m0 m1 lst os Hcreate Hnn Hrd.
  destruct (sllist_create_is_list _ _ _ _ Hcreate Hnn) as [Hil Hfresh].
  assert (trace m1 = trace m0 /\ forall x, x <> lst -> heap m1 !! x = heap m0 !! x) as [Ht1 Hh1].
  { destruct (sllist_create_cases size m0) as [(rest & H)|(a & rest & Ho & Hu & H)];
      rewrite H in Hcreate; simplify_eq. split; [done|].
    intros x Hx. simpl. by rewrite lookup_insert_ne. }
  destruct (run_ops_frame lst size (heap m0) os m1 [] 0 0 Hil Hrd)
    as (tally & m2 & ns & Hrun & Hil2 & Ht2 & Hout & Hin).
  { intros x Hx _. by apply Hh1. }
  { intros x Hx. by apply elem_of_nil in Hx. }
  destruct (free_sllist_spec _ _ _ _ Hil2) as (m3 & Hfree & _ & Ht3 & Hh3).
  exists tally, m2, m3. split; [done|]. split; [done|].
  split; [|by rewrite Ht3, Ht2].
  apply map_eq. intros x. rewrite Hh3.
  destruct (decide (x ∈ lst :: footprint ns)) as [Hx|Hx].
  - apply elem_of_cons in Hx as [->|Hx]; [done|]. symmetry. by apply Hin.
  - apply not_elem_of_cons in Hx as [Hxl Hx]. by apply Hout.
Qed.

(** X3 at a concrete input: a list created in a blank memory and a run of
    six operations. *)
Lemma X3_witness :
  sllist_create 1 blank_mem = Done 16 blank_list_mem /\
  16 <> NULL /\
  Forall (op_readable 1) sample_run /\
  exists tally m2 m3,
    run_ops 16 sample_run 0 0 blank_list_mem = Done tally m2 /\
    free_sllist 16 m2 = Done tt m3 /\
    heap m3 = heap blank_mem /\ trace m3 = trace blank_mem.
Proof.
  assert (sllist_create 1 blank_mem = Done 16 blank_list_mem) as Hcreate by (vm_compute; reflexivity).
  assert (16 <> NULL) as Hnn by discriminate.
  assert (Forall (op_readable 1) sample_run) as Hrd by (repeat constructor; simpl; lia).
  split; [exact Hcreate|]. split; [exact Hnn|]. split; [exact Hrd|].
  exact (X3_create_run_free_restores_memory 1 blank_mem blank_list_mem 16 sample_run
           Hcreate Hnn Hrd).
Defined.

(** X4: [free_at_front] on a well-formed empty list does nothing; on a
    list with a first element it returns with the rest of the chain as
    the list, in the same order, and the first node and its payload
    released. *)
Theorem X4_free_at_front_removes_first :
  forall (m : mem) (lst : ptr) (sz : N),
    (is_list m lst sz [] -> free_at_front lst m = Done tt m) /\
    (forall t rest,
        is_list m lst sz (t :: rest) ->
        exists m',
          free_at_front lst m = Done tt m' /\
          is_list m' lst sz rest /\
          heap m' !! node_at t = None /\ heap m' !! data_at t = None /\
          oracle m' = oracle m /\ trace m' = trace m).
Proof.
  intros m lst sz. split.
  - intros Hil. rewrite (free_at_front_run _ _ _ _ Hil). by destruct m.
  - intros t rest Hil. rewrite (free_at_front_run _ _ _ _ Hil).
    eexists. split; [done|].
    split; [exact (is_list_remove m lst sz (t :: rest) 0 Hil)|].
    destruct (heap_remove_gone (heap m) lst sz (t :: rest) 0 t eq_refl) as [H1 H2].
    by repeat split.
Qed.

(** X4 at a concrete input: the two-element list. *)
Lemma X4_witness :
  is_list pair_mem 16 1 pair_chain /\
  exists m',
    free_at_front 16 pair_mem = Done tt m' /\
    is_list m' 16 1 [{| node_at := 64; data_at := 80; value := ["B"%byte] |}] /\
    heap m' !! 32 = None /\ heap m' !! 48 = None /\
    oracle m' = oracle pair_mem /\ trace m' = trace pair_mem.
Proof.
  split; [exact sample_pair_is_list|].
  exact (proj2 (X4_free_at_front_removes_first pair_mem 16 1) _ _ sample_pair_is_list).
Defined.

(** X5: [free_at_end] on a well-formed empty list does nothing; on a list
    with a last element - the only one or not - it returns with the chain
    before it as the list, in the same order, and the last node and its
    payload released. *)
Theorem X5_free_at_end_removes_last :
  forall (m : mem) (lst : ptr) (sz : N),
    (is_list m lst sz [] -> free_at_end lst m = Done tt m) /\
    (forall pre t,
        is_list m lst sz (pre ++ [t]) ->
        exists m',
          free_at_end lst m = Done tt m' /\
          is_list m' lst sz pre /\
          heap m' !! node_at t = None /\ heap m' !! data_at t = None /\
          oracle m' = oracle m /\ trace m' = trace m).
Proof.
  intros m lst sz. split.
  - intros Hil. rewrite (free_at_end_run _ _ _ _ Hil). by destruct m.
  - intros pre t Hil. rewrite (free_at_end_run _ _ _ _ Hil).
    assert (length (pre ++ [t]) - 1 = length pre)%nat as -> by (rewrite length_app; simpl; lia).
    assert ((pre ++ [t]) !! length pre = Some t) as Ht by apply list_lookup_middle, eq_refl.
    eexists. split; [done|]. split.
    { pose proof (is_list_remove m lst sz (pre ++ [t]) (length pre) Hil) as H.
      by rewrite delete_middle, app_nil_r in H. }
    destruct (heap_remove_gone (heap m) lst sz (pre ++ [t]) _ t Ht) as [H1 H2].
    by repeat split.
Qed.

(** X5 at a concrete input: the two-element list. *)
Lemma X5_witness :
  is_list pair_mem 16 1 pair_chain /\
  exists m',
    free_at_end 16 pair_mem = Done tt m' /\
    is_list m' 16 1 [{| node_at := 32; data_at := 48; value := ["A"%byte] |}] /\
    heap m' !! 64 = None /\ heap m' !! 80 = None /\
    oracle m' = oracle pair_mem /\ trace m' = trace pair_mem.
Proof.
  split; [exact sample_pair_is_list|].
  exact (proj2 (X5_free_at_end_removes_last pair_mem 16 1)
           [{| node_at := 32; data_at := 48; value := ["A"%byte] |}]
           {| node_at := 64; data_at := 80; value := ["B"%byte] |} sample_pair_is_list).
Defined.

(** X6: on a well-formed list, [free_at_index] with an index below the
    length takes out exactly the element at that index: the elements
    before and after it stay, in order; its node and payload are released
    and [sll_len] is one less. *)
Theorem X6_free_at_index_removes_that_element :
  forall (m : mem) (lst : ptr) (sz : N) (ns : list link) (index : N) (t : link),
    is_list m lst sz ns ->
    ns !! N.to_nat index = Some t ->
    exists m',
      free_at_index lst index m = Done tt m' /\
      is_list m' lst sz (take (N.to_nat index) ns ++ drop (S (N.to_nat index)) ns) /\
      heap m' !! node_at t = None /\ heap m' !! data_at t = None /\
      sll_len lst m' = Done (N.of_nat (length ns) - 1) m'.
Proof.
  intros m lst sz ns index t Hil Ht.
  rewrite (free_at_index_run _ _ _ _ _ Hil).
  pose proof (is_list_remove m lst sz ns (N.to_nat index) Hil) as Hil'.
  rewrite delete_take_drop in Hil'.
  eexists. split; [done|]. split; [exact Hil'|].
  destruct (heap_remove_gone (heap m) lst sz ns _ t Ht) as [H1 H2].
  split; [done|]. split; [done|].
  rewrite (sll_len_run _ _ _ _ Hil'). f_equal.
  apply lookup_lt_Some in Ht.
  rewrite length_app, length_take, length_drop. lia.
Qed.

(** X6 at a concrete input: the two-element list, index 1. *)
Lemma X6_witness :
  is_list pair_mem 16 1 pair_chain /\
  pair_chain !! N.to_nat 1 = Some {| node_at := 64; data_at := 80; value := ["B"%byte] |} /\
  exists m',
    free_at_index 16 1 pair_mem = Done tt m' /\
    is_list m' 16 1 (take (N.to_nat 1) pair_chain ++ drop (S (N.to_nat 1)) pair_chain) /\
    heap m' !! 64 = None /\ heap m' !! 80 = None /\
    sll_len 16 m' = Done (N.of_nat (length pair_chain) - 1) m'.
Proof.
  split; [exact sample_pair_is_list|]. split; [reflexivity|].
  exact (X6_free_at_index_removes_that_element pair_mem 16 1 pair_chain 1 _
           sample_pair_is_list eq_refl).
Defined.

(** X7: [free_at_index] with index 0 returns exactly what [free_at_front]
    returns, in every memory and for every list pointer. *)
Theorem X7_free_at_index_zero_is_free_at_front :
  forall (m : mem) (lst : ptr),
    free_at_index lst 0 m = free_at_front lst m.
Proof.
  intros m lst. unfold free_at_index. unfold bind at 1.
  destruct (get_head lst m) as [hd m'| |] eqn:Hhd.
  - pose proof (get_head_same _ _ _ _ Hhd) as ->.
    destruct (hd =? NULL) eqn:Hnull; [|reflexivity].
    unfold free_at_front. rewrite (bind_done _ _ _ _ _ Hhd). by rewrite Hnull.
  - unfold free_at_front. by rewrite (bind_fault _ _ _ Hhd).
  - unfold free_at_front, bind. by rewrite Hhd.
Qed.

(** X8: on a well-formed list that is not empty, [free_at_index] with the
    length [sll_len] returns, less one, ends exactly as [free_at_end]
    does. *)
Theorem X8_free_at_last_index_is_free_at_end :
  forall (m : mem) (lst : ptr) (sz : N) (ns : list link) (len : N),
    is_list m lst sz ns ->
    sll_len lst m = Done len m ->
    0 < len ->
    free_at_index lst (len - 1) m = free_at_end lst m.
Proof.
  intros m lst sz ns len Hil Hlen Hpos.
  rewrite (sll_len_run _ _ _ _ Hil) in Hlen. simplify_eq.
  rewrite (free_at_index_run _ _ _ _ _ Hil), (free_at_end_run _ _ _ _ Hil).
  do 3 f_equal. lia.
Qed.

(** X8 at a concrete input: the two-element list. *)
Lemma X8_witness :
  is_list pair_mem 16 1 pair_chain /\
  sll_len 16 pair_mem = Done 2 pair_mem /\
  0 < 2 /\
  free_at_index 16 (2 - 1) pair_mem = free_at_end 16 pair_mem.
Proof.
  assert (sll_len 16 pair_mem = Done 2 pair_mem) as Hlen by (vm_compute; reflexivity).
  split; [exact sample_pair_is_list|]. split; [exact Hlen|]. split; [lia|].
  apply (X8_free_at_last_index_is_free_at_end pair_mem 16 1 pair_chain 2
           sample_pair_is_list Hlen). lia.
Defined.

Lemma elements_insert ns i new :
  elements (take i ns ++ new :: drop i ns) =
  take i (elements ns) ++ value new :: drop i (elements ns).
Proof. unfold elements. by rewrite map_app, firstn_map, skipn_map. Qed.

(** X9: on a well-formed list, when the allocations succeed,
    [insert_at_index] with an index up to the length puts a copy of the
    first [data_size] bytes of the value at that index: the elements
    before it stay before it and those from the index on follow it, in
    order, and [sll_len] is one more. *)
Theorem X9_insert_at_index_puts_value_at_index :
  forall (m : mem) (lst : ptr) (sz : N) (ns : list link)
         (src : list byte) (index : N) (a d : ptr),
    is_list m lst sz ns ->
    allocates sz m a d ->
    sz <= N.of_nat (length src) ->
    (N.to_nat index <= length ns)%nat ->
    exists m' ns',
      insert_at_index lst (Some src) index m = Done tt m' /\
      is_list m' lst sz ns' /\
      elements ns' =
      take (N.to_nat index) (elements ns) ++
      take (N.to_nat sz) src :: drop (N.to_nat index) (elements ns) /\
      heap m' !! d = Some (ObjBytes (take (N.to_nat sz) src)) /\
      sll_len lst m' = Done (N.of_nat (length ns) + 1) m'.
Proof.
  intros m lst sz ns src index a d Hil Hal Hsrc Hpos.
  destruct (insert_op_ok m lst sz ns (Insert_at_index (Some src) index) a d src
              eq_refl eq_refl Hil Hal Hsrc Hpos) as (rest & Ho & Hfr & Hrun).
  simpl in Hrun.
  pose proof (is_list_insert m rest (trace m) lst sz ns (N.to_nat index) _ Hil Hfr
                (fresh_good _ _ _ _ _ Hfr Hsrc) Hpos) as Hil1.
  eexists _, _. split; [exact Hrun|]. split; [exact Hil1|].
  split; [apply elements_insert|]. split.
  - destruct Hil1 as [_ _ Hc _ _]. simpl in Hc.
    apply lseg_app in Hc as [_ Hc]. simpl in Hc. tauto.
  - rewrite (sll_len_run _ _ _ _ Hil1). f_equal.
    rewrite length_app. simpl. rewrite length_take, length_drop. lia.
Qed.

(** X9 at a concrete input: the two-element list, the value "C" at
    index 1. *)
Lemma X9_witness :
  is_list pair_mem 16 1 pair_chain /\
  allocates 1 pair_mem 96 112 /\
  1 <= N.of_nat (length ["C"%byte]) /\
  (N.to_nat 1 <= length pair_chain)%nat /\
  exists m' ns',
    insert_at_index 16 (Some ["C"%byte]) 1 pair_mem = Done tt m' /\
    is_list m' 16 1 ns' /\
    elements ns' = [["A"%byte]; ["C"%byte]; ["B"%byte]] /\
    heap m' !! 112 = Some (ObjBytes ["C"%byte]) /\
    sll_len 16 m' = Done 3 m'.
Proof.
  assert (allocates 1 pair_mem 96 112) as Hal.
  { eexists _, _. split; [reflexivity|]. split; [discriminate|].
    split; [reflexivity|discriminate]. }
  split; [exact sample_pair_is_list|]. split; [exact Hal|].
  split; [simpl; lia|]. split; [simpl; lia|].
  apply (X9_insert_at_index_puts_value_at_index pair_mem 16 1 pair_chain ["C"%byte] 1 96 112
           sample_pair_is_list Hal); simpl; lia.
Defined.

(** X10: on a well-formed list, [insert_at_index] with an index above the
    length inserts nothing and keeps nothing: it returns with the list and
    every allocation as they were, the node and the payload storage it had
    allocated are released again, and nothing tells the caller. *)
Theorem X10_insert_out_of_bounds_releases_node :
  forall (m : mem) (lst : ptr) (sz : N) (ns : list link)
         (src : list byte) (index : N) (a d : ptr),
    is_list m lst sz ns ->
    allocates sz m a d ->
    sz <= N.of_nat (length src) ->
    (length ns < N.to_nat index)%nat ->
    exists m',
      insert_at_index lst (Some src) index m = Done tt m' /\
      heap m' = heap m /\ trace m' = trace m /\
      is_list m' lst sz ns /\
      heap m' !! a = None /\ heap m' !! d = None.
Proof.
  intros m lst sz ns src index a d Hil Hal Hsrc Hpos.
  destruct (new_node_for_ok _ _ _ _ _ _ _ Hil Hal Hsrc)
    as (_ & _ & (_ & _ & _ & _ & Hfa & Hfd) & _).
  destruct (insert_at_index_oob m lst sz ns index a d src Hil Hal Hsrc Hpos)
    as (rest & _ & Hrun).
  eexists. split; [exact Hrun|]. simpl. split; [done|]. split; [done|].
  split; [by eapply is_list_heap; [|exact Hil]|]. done.
Qed.

(** X10 at a concrete input: the two-element list, index 3. *)
Lemma X10_witness :
  is_list pair_mem 16 1 pair_chain /\
  allocates 1 pair_mem 96 112 /\
  1 <= N.of_nat (length ["C"%byte]) /\
  (length pair_chain < N.to_nat 3)%nat /\
  exists m',
    insert_at_index 16 (Some ["C"%byte]) 3 pair_mem = Done tt m' /\
    heap m' = heap pair_mem /\ trace m' = trace pair_mem /\
    is_list m' 16 1 pair_chain /\
    heap m' !! 96 = None /\ heap m' !! 112 = None.
Proof.
  assert (allocates 1 pair_mem 96 112) as Hal.
  { eexists _, _. split; [reflexivity|]. split; [discriminate|].
    split; [reflexivity|discriminate]. }
  split; [exact sample_pair_is_list|]. split; [exact Hal|].
  split; [simpl; lia|]. split; [simpl; lia|].
  apply (X10_insert_out_of_bounds_releases_node pair_mem 16 1 pair_chain ["C"%byte] 3 96 112
           sample_pair_is_list Hal); simpl; lia.
Defined.

(** X11: on a well-formed list, [sll_len] returns the number of elements,
    without wrapping around, and leaves the memory as it was. *)
Theorem X11_sll_len_counts_elements :
  forall (m : mem) (lst : ptr) (sz : N) (ns : list link),
    is_list m lst sz ns ->
    sll_len lst m = Done (N.of_nat (length (elements ns))) m /\
    N.of_nat (length (elements ns)) <= SIZE_MAX.
Proof.
  intros m lst sz ns Hil. unfold elements. rewrite length_map.
  split; [by eapply sll_len_run|by eapply is_list_length].
Qed.

(** X11 at a concrete input: the two-element list. *)
Lemma X11_witness :
  is_list pair_mem 16 1 pair_chain /\
  sll_len 16 pair_mem = Done (N.of_nat (length (elements pair_chain))) pair_mem /\
  N.of_nat (length (elements pair_chain)) <= SIZE_MAX.
Proof.
  split; [exact sample_pair_is_list|].
  exact (X11_sll_len_counts_elements pair_mem 16 1 pair_chain sample_pair_is_list).
Defined.

(** X12: [sllist_create] either fails - it returns NULL and no allocation
    has changed - or returns a non-null pointer to storage that was not
    live before, holding a well-formed empty list of the given element
    size, with every other allocation as it was; it prints nothing. *)
Theorem X12_sllist_create_null_or_empty_list :
  forall (size : N) (m : mem),
    exists lst m',
      sllist_create size m = Done lst m' /\ trace m' = trace m /\
      ((lst = NULL /\ heap m' = heap m) \/
       (lst <> NULL /\ heap m !! lst = None /\
        is_list m' lst size [] /\
        sll_len lst m' = Done 0 m' /\
        forall x, x <> lst -> heap m' !! x = heap m !! x)).
Proof.
  intros size m.
  destruct (sllist_create_cases size m) as [(rest & H)|(a & rest & Ho & Hu & H)].
  - eexists _, _. split; [exact H|]. split; [done|]. left. done.
  - apply usable_spec in Hu as (Ha & _ & Hf).
    destruct (sllist_create_is_list _ _ _ _ H Ha) as [Hil _].
    eexists _, _. split; [exact H|]. split; [done|]. right.
    split; [done|]. split; [done|]. split; [done|].
    split; [exact (sll_len_run _ _ _ _ Hil)|].
    intros x Hx. simpl. by rewrite lookup_insert_ne.
Qed.

(** X13: an insertion or removal on a well-formed list touches nothing
    that is not the list's own: every live object other than the
    descriptor, the nodes and the payloads of the list is as it was, and a
    second well-formed list that shares no node or payload with it is
    still the same well-formed list afterwards. *)
Theorem X13_operations_leave_other_objects :
  forall (m : mem) (lst : ptr) (sz : N) (ns : list link) (o : op),
    is_list m lst sz ns ->
    op_readable sz o ->
    exists m',
      run_op lst o m = Done tt m' /\
      (forall x obj,
          heap m !! x = Some obj -> x <> lst -> x ∉ footprint ns ->
          heap m' !! x = Some obj) /\
      (forall lst2 sz2 ns2,
          is_list m lst2 sz2 ns2 -> lst2 <> lst ->
          (forall x, x ∈ footprint ns2 -> x ∉ footprint ns) ->
          is_list m' lst2 sz2 ns2).
Proof.
  intros m lst sz ns o Hil Hrd.
  destruct (op_frame _ _ _ _ _ Hil Hrd) as (m' & ns' & Hrun & Hil' & _ & F1 & F2 & _).
  assert (forall x, is_Some (heap m !! x) -> x <> lst -> x ∉ footprint ns ->
                    heap m' !! x = heap m !! x) as Hframe.
  { intros x [obj Hx] Hxl Hxf. apply F1; [done|done|].
    intros Hx'. rewrite (F2 x Hx' Hxf) in Hx. done. }
  exists m'. split; [exact Hrun|]. split.
  - intros x obj Hx Hxl Hxf. rewrite Hframe; eauto.
  - intros lst2 sz2 ns2 [Hnn2 Hl2 Hc2 Hnd2 Hg2] Hne Hdisj.
    destruct Hil as [Hnn Hl Hc Hnd Hg].
    split; [done| | |done|done].
    + rewrite Hframe; [done|eauto|done|]. by eapply lseg_not_list.
    + eapply lseg_frame; [|exact Hc2]. intros x Hx. apply Hframe.
      * by eapply lseg_live.
      * intros E. subst x. exact (lseg_not_list _ _ _ _ _ Hc2 Hl Hx).
      * by apply Hdisj.
Qed.

(** X13 at a concrete input: two lists in one memory, an insertion at the
    end of the first. *)
Lemma X13_witness :
  is_list two_lists_mem 16 1 sample_chain /\
  op_readable 1 (Insert_end (Some ["B"%byte])) /\
  is_list two_lists_mem 128 2 other_chain /\
  exists m',
    run_op 16 (Insert_end (Some ["B"%byte])) two_lists_mem = Done tt m' /\
    heap m' !! 160 = Some (ObjBytes ["Z"%byte; "Z"%byte]) /\
    is_list m' 128 2 other_chain.
Proof.
  assert (op_readable 1 (Insert_end (Some ["B"%byte]))) as Hrd by (simpl; lia).
  split; [exact two_lists_first|]. split; [exact Hrd|]. split; [exact two_lists_second|].
  destruct (X13_operations_leave_other_objects two_lists_mem 16 1 sample_chain _
              two_lists_first Hrd) as (m' & Hrun & Hobj & Hlist).
  exists m'. split; [exact Hrun|]. split.
  - apply Hobj; [reflexivity|discriminate|].
    simpl. rewrite !elem_of_cons, elem_of_nil. intuition discriminate.
  - apply Hlist; [exact two_lists_second|discriminate|].
    intros x. simpl. rewrite !elem_of_cons, !elem_of_nil.
    intros [->|[->|[]]]; intuition discriminate.
Defined.

(** X14: on a well-formed list, when the allocations succeed,
    [insert_front] followed by [free_at_front], and [insert_end] followed
    by [free_at_end], return with the list and every allocation as they
    were. *)
Theorem X14_insert_then_free_at_same_end :
  forall (m : mem) (lst : ptr) (sz : N) (ns : list link) (src : list byte) (a d : ptr),
    is_list m lst sz ns ->
    allocates sz m a d ->
    sz <= N.of_nat (length src) ->
    (exists m',
        (insert_front lst (Some src) ;; free_at_front lst) m = Done tt m' /\
        heap m' = heap m /\ is_list m' lst sz ns) /\
    (exists m',
        (insert_end lst (Some src) ;; free_at_end lst) m = Done tt m' /\
        heap m' = heap m /\ is_list m' lst sz ns).
Proof.
  intros m lst sz ns src a d Hil Hal Hsrc. split.
  - destruct (insert_op_ok m lst sz ns (Insert_front (Some src)) a d src
                eq_refl eq_refl Hil Hal Hsrc (Nat.le_0_l _)) as (rest & Ho & Hfr & Hrun).
    simpl in Hrun.
    pose proof (is_list_insert m rest (trace m) lst sz ns 0 _ Hil Hfr
                  (fresh_good _ _ _ _ _ Hfr Hsrc) (Nat.le_0_l _)) as Hil1.
    pose proof (heap_remove_insert m lst sz ns 0 _ Hil Hfr (Nat.le_0_l _)) as Hback.
    eexists. split.
    { eapply bind_run; [exact Hrun|]. eapply free_at_front_run. exact Hil1. }
    simpl. split; [exact Hback|]. eapply is_list_heap; [|exact Hil]. exact Hback.
  - destruct (insert_op_ok m lst sz ns (Insert_end (Some src)) a d src
                eq_refl eq_refl Hil Hal Hsrc (le_n _)) as (rest & Ho & Hfr & Hrun).
    simpl in Hrun.
    pose proof (is_list_insert m rest (trace m) lst sz ns (length ns) _ Hil Hfr
                  (fresh_good _ _ _ _ _ Hfr Hsrc) (le_n _)) as Hil1.
    pose proof (heap_remove_insert m lst sz ns (length ns) _ Hil Hfr (le_n _)) as Hback.
    eexists. split.
    { eapply bind_run; [exact Hrun|]. eapply free_at_end_run. exact Hil1. }
    assert (length (take (length ns) ns ++ new_link sz a d src :: drop (length ns) ns) - 1
            = length ns)%nat as ->.
    { rewrite length_app. simpl. rewrite length_take, length_drop. lia. }
    simpl. split; [exact Hback|]. eapply is_list_heap; [|exact Hil]. exact Hback.
Qed.

(** X14 at a concrete input: the two-element list, the value "C". *)
Lemma X14_witness :
  is_list pair_mem 16 1 pair_chain /\
  allocates 1 pair_mem 96 112 /\
  1 <= N.of_nat (length ["C"%byte]) /\
  (exists m',
      (insert_front 16 (Some ["C"%byte]) ;; free_at_front 16) pair_mem = Done tt m' /\
      heap m' = heap pair_mem /\ is_list m' 16 1 pair_chain) /\
  (exists m',
      (insert_end 16 (Some ["C"%byte]) ;; free_at_end 16) pair_mem = Done tt m' /\
      heap m' = heap pair_mem /\ is_list m' 16 1 pair_chain).
Proof.
  assert (allocates 1 pair_mem 96 112) as Hal.
  { eexists _, _. split; [reflexivity|]. split; [discriminate|].
    split; [reflexivity|discriminate]. }
  split; [exact sample_pair_is_list|]. split; [exact Hal|]. split; [simpl; lia|].
  apply (X14_insert_then_free_at_same_end pair_mem 16 1 pair_chain ["C"%byte] 96 112
           sample_pair_is_list Hal). simpl; lia.
Defined.

(** X15: on a well-formed list with at least two elements, [free_at_front]
    followed by [free_at_end] leaves exactly the elements between the
    first and the last, in order; a two-element list is empty afterwards
    and [sll_len] returns 0. *)
Theorem X15_free_front_then_end_keeps_middle :
  forall (m : mem) (lst : ptr) (sz : N) (t u : link) (mid : list link),
    is_list m lst sz (t :: mid ++ [u]) ->
    exists m',
      (free_at_front lst ;; free_at_end lst) m = Done tt m' /\
      is_list m' lst sz mid /\
      sll_len lst m' = Done (N.of_nat (length mid)) m' /\
      (mid = [] -> sll_len lst m' = Done 0 m').
Proof.
  intros m lst sz t u mid Hil.
  pose proof (is_list_remove m lst sz _ 0 Hil) as Hil1. simpl in Hil1.
  pose proof (is_list_remove _ lst sz _ (length mid) Hil1) as Hil2.
  rewrite delete_middle, app_nil_r in Hil2.
  pose proof (free_at_end_run _ _ _ _ Hil1) as Hend.
  assert (length (mid ++ [u]) - 1 = length mid)%nat as E
    by (rewrite length_app; simpl; lia).
  rewrite E in Hend.
  eexists. split.
  { eapply bind_run; [by eapply free_at_front_run|]. exact Hend. }
  split; [exact Hil2|]. split; [exact (sll_len_run _ _ _ _ Hil2)|].
  intros ->. exact (sll_len_run _ _ _ _ Hil2).
Qed.

(** X15 at a concrete input: the two-element list. *)
Lemma X15_witness :
  is_list pair_mem 16 1 pair_chain /\
  exists m',
    (free_at_front 16 ;; free_at_end 16) pair_mem = Done tt m' /\
    is_list m' 16 1 [] /\
    sll_len 16 m' = Done 0 m' /\
    (@nil link = [] -> sll_len 16 m' = Done 0 m').
Proof.
  split; [exact sample_pair_is_list|].
  exact (X15_free_front_then_end_keeps_middle pair_mem 16 1 _ _ [] sample_pair_is_list).
Defined.

(** X16: the insert functions copy [data_size] bytes whatever the value
    points to: on a well-formed list, when the allocations succeed and the
    caller's storage holds fewer bytes than the element size, each of them
    reads past that storage, which is undefined. *)
Theorem X16_short_value_is_read_past :
  forall (m : mem) (lst : ptr) (sz : N) (ns : list link) (o : op)
         (src : list byte) (a d : ptr),
    is_insertion o = true ->
    op_data o = Some src ->
    is_list m lst sz ns ->
    allocates sz m a d ->
    N.of_nat (length src) < sz ->
    run_op lst o m = Fault.
Proof.
  intros m lst sz ns o src a d Hins Hdata [Hnn Hl Hc Hnd Hg] Hal Hshort.
  rewrite (insert_op_parts lst o Hins), Hdata.
  apply bind_fault.
  destruct (new_node_for_cases lst src _ m Hl Hnn)
    as [(rest & Hf & _)|(a' & d' & rest & _ & _ & _ & [[Hle _]|[_ Hr]])];
    simpl in *.
  - destruct (allocates_not_failure _ _ _ _ Hal Hf).
  - lia.
  - exact Hr.
Qed.

(** X16 at a concrete input: the list of two-byte elements and a one-byte
    value. *)
Lemma X16_witness :
  is_insertion (Insert_front (Some ["B"%byte])) = true /\
  op_data (Insert_front (Some ["B"%byte])) = Some ["B"%byte] /\
  is_list two_lists_mem 128 2 other_chain /\
  allocates 2 two_lists_mem 64 80 /\
  N.of_nat (length ["B"%byte]) < 2 /\
  run_op 128 (Insert_front (Some ["B"%byte])) two_lists_mem = Fault.
Proof.
  assert (allocates 2 two_lists_mem 64 80) as Hal.
  { eexists _, _. split; [reflexivity|]. split; [discriminate|].
    split; [reflexivity|discriminate]. }
  split; [reflexivity|]. split; [reflexivity|]. split; [exact two_lists_second|].
  split; [exact Hal|]. split; [simpl; lia|].
  apply (X16_short_value_is_read_past two_lists_mem 128 2 other_chain
           (Insert_front (Some ["B"%byte])) ["B"%byte] 64 80
           eq_refl eq_refl two_lists_second Hal). simpl; lia.
Defined.

(** X17: on a well-formed list with an allocator that can serve them,
    element-sized values inserted one after another with [insert_front]
    end up in front of the old elements in reverse order of insertion, and
    inserted with [insert_end] they end up behind the old elements in the
    order of insertion. *)
Theorem X17_insert_front_reverses_insert_end_keeps_order :
  forall (m : mem) (lst : ptr) (sz : N) (ns : list link) (vs : list (list byte)),
    is_list m lst sz ns ->
    Forall (fun v => N.of_nat (length v) = sz) vs ->
    supply m (length vs + length vs) ->
    (exists tally m' ns',
        run_ops lst (map (fun v => Insert_front (Some v)) vs) 0 0 m = Done tally m' /\
        is_list m' lst sz ns' /\
        elements ns' = rev vs ++ elements ns) /\
    (exists tally m' ns',
        run_ops lst (map (fun v => Insert_end (Some v)) vs) 0 0 m = Done tally m' /\
        is_list m' lst sz ns' /\
        elements ns' = elements ns ++ vs).
Proof.
  intros m lst sz ns vs Hil Hvs Hsup. split.
  - by apply run_insert_fronts.
  - by apply run_insert_ends.
Qed.

(** X17 at a concrete input: the empty list and the values "A", "B",
    "C". *)
Lemma X17_witness :
  is_list blank_list_mem 16 1 [] /\
  Forall (fun v => N.of_nat (length v) = 1) [["A"%byte]; ["B"%byte]; ["C"%byte]] /\
  supply blank_list_mem (3 + 3) /\
  (exists tally m' ns',
      run_ops 16 (map (fun v => Insert_front (Some v)) [["A"%byte]; ["B"%byte]; ["C"%byte]])
        0 0 blank_list_mem = Done tally m' /\
      is_list m' 16 1 ns' /\
      elements ns' = [["C"%byte]; ["B"%byte]; ["A"%byte]]) /\
  (exists tally m' ns',
      run_ops 16 (map (fun v => Insert_end (Some v)) [["A"%byte]; ["B"%byte]; ["C"%byte]])
        0 0 blank_list_mem = Done tally m' /\
      is_list m' 16 1 ns' /\
      elements ns' = [["A"%byte]; ["B"%byte]; ["C"%byte]]).
Proof.
  assert (Forall (fun v => N.of_nat (length v) = 1) [["A"%byte]; ["B"%byte]; ["C"%byte]]) as Hvs
    by (repeat constructor).
  split; [exact blank_list_is_list|]. split; [exact Hvs|].
  split; [exact blank_list_supply|].
  exact (X17_insert_front_reverses_insert_end_keeps_order blank_list_mem 16 1 [] _
           blank_list_is_list Hvs blank_list_supply).
Defined.
